(** * onvifsnapshot: snapshot acquisition and activity-driven polling

    A shallow embedding of the three server variants of the repository:

    - [server.js]            push variant: /connect and /disconnect drive a
                             recurring poll timer;
    - [unnamed/part_000]     push variant with the snapshot routes (implicit
                             activation) and the periodic inactivity check;
    - [unnamed/part_001]     on-demand variant: every snapshot request
                             acquires before it serves.

    The JavaScript is asynchronous: a function runs synchronously up to an
    [await] on an I/O operation, where it is suspended and other handlers and
    timer callbacks may run.  Programs are therefore values of a small free
    monad [Async] whose nodes are the synchronous accesses to the module-level
    variables and the suspensions on I/O.  What the camera and the disk do is
    not decided by the code: an [Answer] says what they would reply to each
    kind of operation, and [perform] gives the effect of an operation under
    an answer.  Two interpreters are given: [run], which executes one program
    alone to completion against an environment that answers every operation,
    and (in [Push]) an event loop [step] that interleaves suspended handlers,
    timers and completing operations; [run_alone] relates the two.

    Abstractions: JavaScript numbers are mathematical integers ([Z]); console
    output is not modelled (the functions of [server.js] are those of
    [part_000] without their console calls, and its routes are a subset);
    [fs.writeFile] writes in place: a write that fails once the file is
    open leaves it cut ([writeFile]), and in the event loop a write in
    progress shows in the file ([Push.Progress]); the ONVIF library
    (node-onvif) is not part of the sources: its device object is reduced to
    whether it has a session (see [init] and [fetchSnapshot]); the routes
    [/] and [/debug] and the static middleware, which touch none of the
    variables, are left out. *)

From Stdlib Require Import ZArith List String Bool Lia DecimalString.
From Stdlib Require DecimalZ DecimalPos.
From ExtLib Require Import Structures.Monad.
Import ListNotations.
Import MonadNotation.

Local Open Scope Z_scope.
Local Open Scope monad_scope.

(** ** Data *)

Definition bytes := list Byte.byte.

(** Handle returned by [setInterval]. *)
Definition Timeout := nat.

(** The environment variables read at module load. *)
Record Config := {
  CAMERA_IP : string;
  CAMERA_USERNAME : string;
  CAMERA_PASSWORD : string;
  ONVIF_PORT : string;
  POLLING_INTERVAL : Z;
  INACTIVITY_TIMEOUT : Z
}.

(** [new onvif.OnvifDevice({xaddr, user, pass})] *)
Record OnvifDevice := {
  xaddr : string;
  user : string;
  pass : string
}.

(** The I/O operations the servers await. *)
Inductive Io :=
| axios_get (url : string)        (* axios.get(directUrl, {...}) *)
| fs_writeFile (data : bytes)     (* fs.writeFile(SNAPSHOT_PATH, data) *)
| fs_readFile                     (* fs.readFile(SNAPSHOT_PATH) *)
| fs_mkdir                        (* fs.mkdir(public, {recursive: true}) *)
| device_init (d : OnvifDevice)   (* device.init(callback) *)
| device_fetchSnapshot (d : OnvifDevice). (* device.fetchSnapshot(callback) *)

(** What an awaited operation gives back to the code. *)
Inductive Reply :=
| Failed                                       (* rejection, or callback error *)
| Fulfilled                                    (* resolved, no value used *)
| Data (data : bytes)                          (* response.data, file contents *)
| Snapshot (content_type : string) (body : bytes). (* res.headers, res.body *)

Inductive Json :=
| JStr (s : string)
| JNum (n : Z)
| JBool (b : bool).

Inductive Body :=
| Raw (data : bytes)
| Object (fields : list (string * Json)).

Record Response := {
  status : Z;
  headers : list (string * string);
  body : Body
}.

Inductive Event :=
| EvIo (io : Io) (r : Reply)          (* an I/O operation and what it gave back *)
| EvResponse (res : nat) (r : Response). (* a response sent on [res] *)

(** Module-level variables, the interval table of the runtime, the snapshot
    file and the clock; what the device object of the ONVIF library holds
    is reduced to whether it has a session with the camera. *)
Record State := {
  lastSnapshotRequest : Z;
  connectedClients : Z;
  pollingInterval : option Timeout;   (* null, or the handle of setInterval *)
  device : option OnvifDevice;        (* null, or the device object *)
  timers : list Timeout;              (* intervals set and not cleared *)
  next_timer : Timeout;
  file : option bytes;                (* SNAPSHOT_PATH; None while absent *)
  now : Z;                            (* Date.now() *)
  trace : list Event;                 (* oldest first *)
  session : bool;                     (* the device object has a session *)
  exchanges : nat                     (* requests made to the camera *)
}.

Definition set_lastSnapshotRequest (v : Z) (s : State) : State :=
  {| lastSnapshotRequest := v; connectedClients := connectedClients s;
     pollingInterval := pollingInterval s; device := device s;
     timers := timers s; next_timer := next_timer s; file := file s;
     now := now s; trace := trace s;
     session := session s; exchanges := exchanges s |}.

Definition set_connectedClients (v : Z) (s : State) : State :=
  {| lastSnapshotRequest := lastSnapshotRequest s; connectedClients := v;
     pollingInterval := pollingInterval s; device := device s;
     timers := timers s; next_timer := next_timer s; file := file s;
     now := now s; trace := trace s;
     session := session s; exchanges := exchanges s |}.

Definition set_pollingInterval (v : option Timeout) (s : State) : State :=
  {| lastSnapshotRequest := lastSnapshotRequest s;
     connectedClients := connectedClients s;
     pollingInterval := v; device := device s;
     timers := timers s; next_timer := next_timer s; file := file s;
     now := now s; trace := trace s;
     session := session s; exchanges := exchanges s |}.

Definition set_device (v : option OnvifDevice) (s : State) : State :=
  {| lastSnapshotRequest := lastSnapshotRequest s;
     connectedClients := connectedClients s;
     pollingInterval := pollingInterval s; device := v;
     timers := timers s; next_timer := next_timer s; file := file s;
     now := now s; trace := trace s;
     session := session s; exchanges := exchanges s |}.

Definition set_timers (v : list Timeout) (n : Timeout) (s : State) : State :=
  {| lastSnapshotRequest := lastSnapshotRequest s;
     connectedClients := connectedClients s;
     pollingInterval := pollingInterval s; device := device s;
     timers := v; next_timer := n; file := file s;
     now := now s; trace := trace s;
     session := session s; exchanges := exchanges s |}.

Definition set_file (v : option bytes) (s : State) : State :=
  {| lastSnapshotRequest := lastSnapshotRequest s;
     connectedClients := connectedClients s;
     pollingInterval := pollingInterval s; device := device s;
     timers := timers s; next_timer := next_timer s; file := v;
     now := now s; trace := trace s;
     session := session s; exchanges := exchanges s |}.

Definition set_now (v : Z) (s : State) : State :=
  {| lastSnapshotRequest := lastSnapshotRequest s;
     connectedClients := connectedClients s;
     pollingInterval := pollingInterval s; device := device s;
     timers := timers s; next_timer := next_timer s; file := file s;
     now := v; trace := trace s;
     session := session s; exchanges := exchanges s |}.

Definition set_session (v : bool) (s : State) : State :=
  {| lastSnapshotRequest := lastSnapshotRequest s;
     connectedClients := connectedClients s;
     pollingInterval := pollingInterval s; device := device s;
     timers := timers s; next_timer := next_timer s; file := file s;
     now := now s; trace := trace s;
     session := v; exchanges := exchanges s |}.

(** One more request made to the camera, answered or not. *)
Definition sent (s : State) : State :=
  {| lastSnapshotRequest := lastSnapshotRequest s;
     connectedClients := connectedClients s;
     pollingInterval := pollingInterval s; device := device s;
     timers := timers s; next_timer := next_timer s; file := file s;
     now := now s; trace := trace s;
     session := session s; exchanges := S (exchanges s) |}.

Definition emit (e : Event) (s : State) : State :=
  {| lastSnapshotRequest := lastSnapshotRequest s;
     connectedClients := connectedClients s;
     pollingInterval := pollingInterval s; device := device s;
     timers := timers s; next_timer := next_timer s; file := file s;
     now := now s; trace := trace s ++ [e];
     session := session s; exchanges := exchanges s |}.

(** ** Asynchronous programs *)

Inductive Async (A : Type) : Type :=
| Ret (a : A)
| Get (k : State -> Async A)               (* read the variables *)
| Put (f : State -> State) (k : Async A)   (* update them *)
| Await (io : Io) (k : Reply -> Async A).  (* suspend on an I/O operation *)

Arguments Ret {A} a.
Arguments Get {A} k.
Arguments Put {A} f k.
Arguments Await {A} io k.

Fixpoint abind {A B : Type} (m : Async A) (f : A -> Async B) : Async B :=
  match m with
  | Ret a => f a
  | Get k => Get (fun s => abind (k s) f)
  | Put g k => Put g (abind k f)
  | Await io k => Await io (fun r => abind (k r) f)
  end.

#[export] Instance Monad_Async : Monad Async :=
  {| ret := @Ret; bind := @abind |}.

Definition get : Async State := Get (fun s => Ret s).
Definition modify (f : State -> State) : Async unit := Put f (Ret tt).
Definition await (io : Io) : Async Reply := Await io (fun r => Ret r).

(** ** The environment *)

(** What the outside world would answer, at some moment, to each kind of
    operation. *)
Record Answer := {
  camera_http : option bytes;   (* body of a 2xx reply to the GET; None on
                                   timeout, other status, transport error *)
  camera_init : bool;           (* device.init reports no error *)
  camera_snapshot : option (string * bytes);
                                (* content type and body handed to the
                                   callback of fetchSnapshot; None on error *)
  disk_write : bool;            (* fs.writeFile goes through *)
  disk_torn : option nat;       (* when it does not: None if the file could
                                   not be opened, Some n if it was opened
                                   and the write failed after n bytes *)
  disk_read : bool;             (* fs.readFile can read the file if present *)
  disk_mkdir : bool
}.

(** [fs.writeFile(SNAPSHOT_PATH, data)] writes in place: it opens the file
    with flag w, which empties it, puts the data and closes.  A write that
    goes through leaves the data; one that fails before the file is open
    leaves the file as it was; one that fails later leaves the bytes put so
    far, none when n is 0. *)
Definition writeFile (a : Answer) (data : bytes) (s : State) : Reply * State :=
  if disk_write a then (Fulfilled, set_file (Some data) s)
  else match disk_torn a with
       | None => (Failed, s)
       | Some n => (Failed, set_file (Some (firstn n data)) s)
       end.

(** Modelled from the spec: the device object of the ONVIF library
    (node-onvif, which is not under src/).  The session with the camera is
    established by an [init] that reports no error (spec 3, DeviceSession:
    established once at initialisation, absent when never initialised or
    when initialisation failed). *)
Definition init (a : Answer) (s : State) : Reply * State :=
  if camera_init a then (Fulfilled, set_session true (sent s))
  else (Failed, sent s).

(** Modelled from the spec: [fetchSnapshot] of the ONVIF library (node-onvif,
    which is not under src/).  On a device object without a session the call
    reports an error at once and nothing is sent to the camera (spec 4.1:
    no lazy reconnection; spec 3: the ONVIF strategy is then a no-op
    failure); with a session the camera is asked. *)
Definition fetchSnapshot (a : Answer) (s : State) : Reply * State :=
  if session s then
    match camera_snapshot a with
    | Some (ct, b) => (Snapshot ct b, sent s)
    | None => (Failed, sent s)
    end
  else (Failed, s).

(** The effect of an I/O operation that completes at time [t] in a world
    that answers [a]. *)
Definition perform (t : Z) (a : Answer) (io : Io) (s : State) : Reply * State :=
  let s := set_now t s in
  let '(r, s') :=
    match io with
    | axios_get _ =>
        match camera_http a with
        | Some d => (Data d, sent s)
        | None => (Failed, sent s)
        end
    | fs_writeFile d => writeFile a d s
    | fs_readFile =>
        match (if disk_read a then file s else None) with
        | Some d => (Data d, s)
        | None => (Failed, s)          (* ENOENT, EACCES, ... *)
        end
    | fs_mkdir => (if disk_mkdir a then Fulfilled else Failed, s)
    | device_init _ => init a s
    | device_fetchSnapshot _ => fetchSnapshot a s
    end in
  (r, emit (EvIo io r) s').

(** An environment tells when the operation issued after n events completes
    and what the world answers then. *)
Definition Env := nat -> Z * Answer.

(** Run a program alone until it returns. *)
Fixpoint run {A : Type} (env : Env) (p : Async A) (s : State) : A * State :=
  match p with
  | Ret a => (a, s)
  | Get k => run env (k s) s
  | Put f k => run env k (f s)
  | Await io k =>
      let '(t, a) := env (List.length (trace s)) in
      let '(r, s') := perform t a io s in
      run env (k r) s'
  end.


(** ** Functions shared by the three variants *)

Inductive value :=
| undefined
| boolean (b : bool).

Definition number_to_string (z : Z) : string :=
  NilZero.string_of_int (Z.to_int z).

Definition respond (res : nat) (r : Response) : Async unit :=
  modify (emit (EvResponse res r)).

Section Camera.

Variable cfg : Config.

Definition ensureDirectories : Async unit :=
  _ <- await fs_mkdir ;;
  ret tt.

(** Resolves ([true]) or rejects ([false]).  [device] is assigned a new
    device object, which has no session yet, before [init] is called, and
    stays assigned whatever [init] reports. *)
Definition initializeDevice : Async bool :=
  let d := {| xaddr := "https://" ++ CAMERA_IP cfg ++ ":" ++ ONVIF_PORT cfg
                         ++ "/onvif/device_service";
              user := CAMERA_USERNAME cfg;
              pass := CAMERA_PASSWORD cfg |}%string in
  modify (fun s => set_session false (set_device (Some d) s)) ;;
  error <- await (device_init d) ;;
  match error with
  | Failed => ret false
  | _ => ret true
  end.

Definition directUrl (t : Z) : string :=
  ("https://" ++ CAMERA_IP cfg ++ "/cgi-bin/api.cgi?cmd=Snap&channel=0&rs="
     ++ number_to_string t ++ "&user=" ++ CAMERA_USERNAME cfg
     ++ "&password=" ++ CAMERA_PASSWORD cfg)%string.

Definition getSnapshotDirect : Async bool :=
  s <- get ;;
  response <- await (axios_get (directUrl (now s))) ;;
  match response with
  | Data data =>
      w <- await (fs_writeFile data) ;;
      match w with
      | Failed => ret false
      | _ => ret true
      end
  | _ => ret false
  end.

Definition getSnapshotONVIF : Async bool :=
  s <- get ;;
  match device s with
  | None => ret false
  | Some d =>
      r <- await (device_fetchSnapshot d) ;;
      match r with
      | Snapshot content_type body =>
          if String.eqb content_type "image/jpeg" then
            w <- await (fs_writeFile body) ;;
            match w with
            | Failed => ret false
            | _ => ret true
            end
          else ret false
      | _ => ret false
      end
  end.

Definition no_cache_headers : list (string * string) :=
  [("Content-Type", "image/jpeg");
   ("Cache-Control", "no-store, no-cache, must-revalidate, proxy-revalidate");
   ("Pragma", "no-cache");
   ("Expires", "0")]%string.

Definition not_available : Response :=
  {| status := 500; headers := [];
     body := Object [("error", JStr "Snapshot not available")]%string |}.

(** [part_000] and [part_001] *)
Definition serveSnapshot (res : nat) : Async unit :=
  r <- await fs_readFile ;;
  match r with
  | Data data =>
      respond res {| status := 200; headers := no_cache_headers;
                     body := Raw data |}
  | _ => respond res not_available
  end.

(** [start()] up to [app.listen]; requests are served from then on. *)
Definition start : Async unit :=
  ensureDirectories ;;
  _ <- initializeDevice ;;
  ret tt.

End Camera.

Definition initial (f : option bytes) (t : Z) : State :=
  {| lastSnapshotRequest := 0; connectedClients := 0;
     pollingInterval := None; device := None;
     timers := []; next_timer := O; file := f; now := t; trace := [];
     session := false; exchanges := O |}.

(** ** The on-demand variant ([part_001]) *)

Module OnDemand.

Section Server.

Variable cfg : Config.

Definition getSnapshot : Async value :=
  direct <- getSnapshotDirect cfg ;;
  success <- (if direct : bool then Ret true else getSnapshotONVIF) ;;
  ret (boolean success).

(** [app.get('/snapshot.jpg')] *)
Definition snapshot_jpg (res : nat) : Async unit :=
  _ <- getSnapshot ;;
  serveSnapshot res.

(** [app.get('/snapshot/:name.jpg')] *)
Definition snapshot_name (name : string) (res : nat) : Async unit :=
  _ <- getSnapshot ;;
  serveSnapshot res.

(** [app.get('/test-snapshot')] *)
Definition test_snapshot (res : nat) : Async unit :=
  success <- getSnapshot ;;
  respond res
    {| status := 200; headers := [];
       body := Object
         [("message", JStr "Snapshot test completed, check logs");
          ("success", match success with
                      | boolean b => JBool b
                      | undefined => JBool false
                      end)]%string |}.

End Server.

End OnDemand.

(** ** The push variant ([server.js], [part_000]) *)

Module Push.

Section Server.

Variable cfg : Config.

(** The value of [success] is computed and dropped: the function has no
    [return]. *)
Definition pollSnapshot : Async value :=
  direct <- getSnapshotDirect cfg ;;
  success <- (if direct : bool then Ret true else getSnapshotONVIF) ;;
  ret undefined.

(** [setInterval(pollSnapshot, POLLING_INTERVAL)]: the only callback ever
    given is the poll, so the table keeps the handles. *)
Definition setInterval : Async Timeout :=
  s <- get ;;
  let h := next_timer s in
  modify (set_timers (timers s ++ [h]) (S h)) ;;
  ret h.

Definition clearInterval (h : Timeout) : Async unit :=
  modify (fun s =>
            set_timers (remove Nat.eq_dec h (timers s)) (next_timer s) s).

Definition startPolling : Async unit :=
  s <- get ;;
  match pollingInterval s with
  | Some _ => ret tt                     (* Already polling *)
  | None =>
      _ <- pollSnapshot ;;
      h <- setInterval ;;
      modify (set_pollingInterval (Some h))
  end.

Definition stopPolling : Async unit :=
  s <- get ;;
  match pollingInterval s with
  | None => ret tt                       (* Not polling *)
  | Some h =>
      clearInterval h ;;
      modify (set_pollingInterval None)
  end.

(** [app.get('/snapshot.jpg')] and [app.get('/snapshot/:name.jpg')]
    ([part_000]) *)
Definition snapshot_jpg (res : nat) : Async unit :=
  modify (fun s => set_lastSnapshotRequest (now s) s) ;;
  s <- get ;;
  match pollingInterval s with
  | None => startPolling
  | Some _ => ret tt
  end ;;
  serveSnapshot res.

Definition snapshot_name (name : string) (res : nat) : Async unit :=
  modify (fun s => set_lastSnapshotRequest (now s) s) ;;
  s <- get ;;
  match pollingInterval s with
  | None => startPolling
  | Some _ => ret tt
  end ;;
  serveSnapshot res.

Definition clients_response (st : string) (n : Z) : Response :=
  {| status := 200; headers := [];
     body := Object [("status", JStr st); ("clients", JNum n)]%string |}.

(** [app.get('/connect')] *)
Definition connect (res : nat) : Async unit :=
  modify (fun s => set_connectedClients (connectedClients s + 1) s) ;;
  s <- get ;;
  (if connectedClients s =? 1 then startPolling else ret tt) ;;
  s <- get ;;
  respond res (clients_response "connected" (connectedClients s)).

(** [app.get('/disconnect')] *)
Definition disconnect (res : nat) : Async unit :=
  modify (fun s =>
            set_connectedClients (Z.max 0 (connectedClients s - 1)) s) ;;
  s <- get ;;
  (if connectedClients s =? 0 then stopPolling else ret tt) ;;
  s <- get ;;
  respond res (clients_response "disconnected" (connectedClients s)).

(** [app.get('/test-snapshot')] ([part_000]) *)
Definition test_snapshot (res : nat) : Async unit :=
  _ <- pollSnapshot ;;
  respond res
    {| status := 200; headers := [];
       body := Object
         [("message", JStr "Snapshot test completed, check logs")]%string |}.

(** The callback of [setInterval(..., INACTIVITY_TIMEOUT)] ([part_000]) *)
Definition inactivity_check : Async unit :=
  s <- get ;;
  let inactive := now s - lastSnapshotRequest s >? INACTIVITY_TIMEOUT cfg in
  match pollingInterval s with
  | Some _ =>
      if inactive && (connectedClients s =? 0) then stopPolling
      else ret tt
  | None => ret tt
  end.

(** *** The event loop *)

Inductive Route :=
| SnapshotJpg
| SnapshotName (name : string)
| Connect
| Disconnect
| TestSnapshot.

Definition handler (r : Route) (res : nat) : Async unit :=
  match r with
  | SnapshotJpg => snapshot_jpg res
  | SnapshotName name => snapshot_name name res
  | Connect => connect res
  | Disconnect => disconnect res
  | TestSnapshot => test_snapshot res
  end.

(** The callback of the poll interval. *)
Definition poll_tick : Async unit :=
  _ <- pollSnapshot ;;
  ret tt.

(** A suspended program: the operation it awaits and what it does with
    the reply. *)
Definition Task := (Io * (Reply -> Async unit))%type.

Record Sys := {
  st : State;
  waiting : list Task
}.

(** Run the synchronous part of [p]: up to its next [await], or its end. *)
Fixpoint advance (p : Async unit) (s : State) : State * list Task :=
  match p with
  | Ret _ => (s, [])
  | Get k => advance (k s) s
  | Put f k => advance k (f s)
  | Await io k => (s, [(io, k)])
  end.

Definition spawn (p : Async unit) (y : Sys) : Sys :=
  let '(s, t) := advance p (st y) in
  {| st := s; waiting := waiting y ++ t |}.

Definition tick (t : Z) (y : Sys) : Sys :=
  {| st := set_now t (st y); waiting := waiting y |}.

Definition remove_nth {A : Type} (i : nat) (l : list A) : list A :=
  firstn i l ++ skipn (S i) l.

Inductive Action :=
| Request (r : Route) (res : nat)   (* an HTTP request arrives *)
| Completes (i : nat) (a : Answer)  (* the I/O of the i-th task completes *)
| Progress (i : nat) (n : nat)      (* the write the i-th task awaits has
                                       opened the file and put n bytes *)
| Interval (h : Timeout)            (* the interval [h] elapses *)
| InactivityTimer.                  (* the inactivity interval elapses *)

(** One turn of the event loop at time [t]. *)
Definition step (y : Sys) (ta : Z * Action) : Sys :=
  let '(t, act) := ta in
  match act with
  | Request r res => spawn (handler r res) (tick t y)
  | Completes i a =>
      match nth_error (waiting y) i with
      | Some (io, k) =>
          let '(r, s) := perform t a io (st y) in
          spawn (k r) {| st := s; waiting := remove_nth i (waiting y) |}
      | None => y
      end
  | Progress i n =>
      match nth_error (waiting y) i with
      | Some (fs_writeFile d, _) =>
          {| st := set_file (Some (firstn n d)) (set_now t (st y));
             waiting := waiting y |}
      | _ => y
      end
  | Interval h =>
      if existsb (Nat.eqb h) (timers (st y))
      then spawn poll_tick (tick t y)
      else y
  | InactivityTimer => spawn inactivity_check (tick t y)
  end.

Definition exec (ins : list (Z * Action)) (y : Sys) : Sys :=
  fold_left step ins y.

(** The turns in which [p], started in [s], runs to its end with nothing
    else happening in between: each operation it awaits completes as [env]
    says. *)
Fixpoint alone (env : Env) (p : Async unit) (s : State) : list (Z * Action) :=
  match p with
  | Ret _ => []
  | Get k => alone env (k s) s
  | Put f k => alone env k (f s)
  | Await io k =>
      let '(t, a) := env (List.length (trace s)) in
      let '(r, s') := perform t a io s in
      (t, Completes 0 a) :: alone env (k r) s'
  end.

(** The server once [start()] has run, listening. *)
Definition boot (env : Env) (f : option bytes) (t : Z) : Sys :=
  {| st := snd (run env (start cfg) (initial f t)); waiting := [] |}.

End Server.

End Push.

(** ** Observations on traces *)

(** The events added between [s] and a later state [s']. *)
Definition since (s s' : State) : list Event :=
  skipn (List.length (trace s)) (trace s').

(** The contents put in the snapshot file, in order. *)
Fixpoint stored (tr : list Event) : list bytes :=
  match tr with
  | [] => []
  | EvIo (fs_writeFile d) Fulfilled :: tr => d :: stored tr
  | _ :: tr => stored tr
  end.

Definition is_direct (e : Event) : bool :=
  match e with
  | EvIo (axios_get _) _ => true
  | _ => false
  end.

Definition is_onvif (e : Event) : bool :=
  match e with
  | EvIo (device_fetchSnapshot _) _ => true
  | _ => false
  end.

(** Every acquisition starts with one GET on the vendor endpoint and issues
    no other, so the GETs of a trace count its acquisitions. *)
Definition acquisitions (tr : list Event) : nat :=
  List.length (filter is_direct tr).

(** The acquisition wrote the file once and the file holds what it wrote. *)
Definition updated (s s' : State) : Prop :=
  exists data, stored (since s s') = [data] /\ file s' = Some data.

(** The acquisition did not write the file. *)
Definition untouched (s s' : State) : Prop :=
  stored (since s s') = [] /\ file s' = file s.

(** The contents the writes were given, whether they went through or not. *)
Fixpoint attempted (tr : list Event) : list bytes :=
  match tr with
  | [] => []
  | EvIo (fs_writeFile d) _ :: tr => d :: attempted tr
  | _ :: tr => attempted tr
  end.

(** No write went through.  The file is as it was, or a write that failed
    after it had opened the file has left in it the first bytes of what it
    was given, possibly none. *)
Definition not_updated (s s' : State) : Prop :=
  stored (since s s') = []
  /\ (file s' = file s
      \/ exists data n,
           In data (attempted (since s s'))
           /\ file s' = Some (firstn n data)).

(** The contract of an acquisition [acq] as the specification words it: it
    returns true with the store updated iff one of the fetchers succeeds, and
    false with the store untouched iff both fail.  [o] is what the ONVIF
    fetch gives on the state the direct fetch leaves. *)
Definition acquire_contract
    (cfg : Config) (acq : Async value) (env : Env) (s : State) : Prop :=
  let '(d, s1) := run env (getSnapshotDirect cfg) s in
  let o := fst (run env getSnapshotONVIF s1) in
  let '(v, s') := run env acq s in
  ((v = boolean true /\ updated s s') <-> (d = true \/ o = true))
  /\ ((v = boolean false /\ untouched s s') <-> (d = false /\ o = false)).

(** The contract of getSnapshot as the code has it: true with the file
    holding what was written iff one of the fetchers returns true, false
    with no write gone through iff both return false. *)
Definition acquire_outcome
    (cfg : Config) (acq : Async value) (env : Env) (s : State) : Prop :=
  let '(d, s1) := run env (getSnapshotDirect cfg) s in
  let o := fst (run env getSnapshotONVIF s1) in
  let '(v, s') := run env acq s in
  ((v = boolean true /\ updated s s') <-> (d = true \/ o = true))
  /\ ((v = boolean false /\ not_updated s s') <-> (d = false /\ o = false)).

(** The fallback chain of an acquisition [acq]: the first thing it does is
    the GET on the vendor endpoint, it does no second one, and it calls
    [device.fetchSnapshot] exactly when the direct fetch returned false and
    [device] is set; when the direct fetch returned true it ends in the very
    state that fetch left. *)
Definition fallback_chain
    (cfg : Config) (acq : Async value) (env : Env) (s : State) : Prop :=
  let d := fst (run env (getSnapshotDirect cfg) s) in
  let s' := snd (run env acq s) in
  (exists r rest,
      since s s' = EvIo (axios_get (directUrl cfg (now s))) r :: rest
      /\ existsb is_direct rest = false)
  /\ existsb is_onvif (since s s') =
     negb d && match device s with Some _ => true | None => false end
  /\ (if d then s' = snd (run env (getSnapshotDirect cfg) s) else True).


(** A fetcher reports with its boolean whether its write went through. *)
Definition reports_write (f : Async bool) (env : Env) (s : State) : Prop :=
  let '(b, s') := run env f s in
  (b = true <-> updated s s') /\ (b = false <-> not_updated s s').

(** The coordinator [acq] ends in the state its fetchers left. *)
Definition adds_nothing
    (cfg : Config) (acq : Async value) (env : Env) (s : State) : Prop :=
  let '(d, s1) := run env (getSnapshotDirect cfg) s in
  snd (run env acq s) = if d then s1 else snd (run env getSnapshotONVIF s1).

Definition image_response (data : bytes) : Response :=
  {| status := 200; headers := no_cache_headers; body := Raw data |}.

(** What a read of the snapshot file gives in state [s] when the world
    answers [a]: the content, or nothing. *)
Definition read_store (a : Answer) (s : State) : Reply :=
  match (if disk_read a then file s else None) with
  | Some d => Data d
  | None => Failed
  end.

(** What is sent for what the read gave. *)
Definition response_for (r : Reply) : Response :=
  match r with
  | Data d => image_response d
  | _ => not_available
  end.

(** A snapshot handler [h] of the on-demand variant: one acquisition, run to
    its end, then the read of the file as the acquisition left it and the
    response made from it. *)
Definition serves_after_one_acquisition
    (cfg : Config) (h : Async unit) (res : nat) (env : Env) (s : State)
    : Prop :=
  let s1 := snd (run env (OnDemand.getSnapshot cfg) s) in
  let s' := snd (run env h s) in
  let r := read_store (snd (env (List.length (trace s1)))) s1 in
  acquisitions (since s s') = 1%nat
  /\ since s s' = since s s1 ++ since s1 s'
  /\ since s1 s' = [EvIo fs_readFile r; EvResponse res (response_for r)].

(** Programs whose updates of the variables keep [P]. *)
Inductive respects {A : Type} (P : State -> Prop) : Async A -> Prop :=
| respects_Ret (a : A) : respects P (Ret a)
| respects_Get (k : State -> Async A) :
    (forall s, respects P (k s)) -> respects P (Get k)
| respects_Put (f : State -> State) (k : Async A) :
    (forall s, P s -> P (f s)) -> respects P k -> respects P (Put f k)
| respects_Await (io : Io) (k : Reply -> Async A) :
    (forall r, respects P (k r)) -> respects P (Await io k).

(** The state keeps [P] and so will every suspended handler when resumed. *)
Definition keeps (P : State -> Prop) (y : Push.Sys) : Prop :=
  P (Push.st y)
  /\ Forall (fun k : Push.Task => forall r, respects P (snd k r))
       (Push.waiting y).

Definition clients_ok (s : State) : Prop := 0 <= connectedClients s.

(** Turns of the event loop in which no request arrives. *)
Definition quiet (ta : Z * Push.Action) : Prop :=
  match snd ta with
  | Push.Request _ _ => False
  | _ => True
  end.

(** ** Concrete inputs *)

Definition cfg0 : Config :=
  {| CAMERA_IP := "192.168.1.100"; CAMERA_USERNAME := "admin";
     CAMERA_PASSWORD := "secret"; ONVIF_PORT := "8000";
     POLLING_INTERVAL := 5000; INACTIVITY_TIMEOUT := 30000 |}.

Definition jpg : bytes := [Byte.xff; Byte.xd8; Byte.xff; Byte.xd9].

(** The camera answers with a frame and the disk works. *)
Definition up : Answer :=
  {| camera_http := Some jpg; camera_init := true;
     camera_snapshot := Some ("image/jpeg"%string, jpg);
     disk_write := true; disk_torn := None; disk_read := true;
     disk_mkdir := true |}.

(** The camera is unreachable and the disk refuses. *)
Definition down : Answer :=
  {| camera_http := None; camera_init := false; camera_snapshot := None;
     disk_write := false; disk_torn := None; disk_read := false;
     disk_mkdir := false |}.

(** The clock advances by one at every operation. *)
Definition env_up : Env := fun n => (Z.of_nat n, up).
Definition env_down : Env := fun n => (Z.of_nat n, down).

Definition dev0 : OnvifDevice :=
  {| xaddr := "https://192.168.1.100:8000/onvif/device_service";
     user := "admin"; pass := "secret" |}.

(** The server after start(), the camera being down. *)
Definition started_down : State :=
  snd (run env_down (start cfg0) (initial None 0)).

(** Two activations overlap: a connect signal, then a snapshot request that
    arrives while the first poll of the connect is still waiting for the
    camera. *)
Definition race : list (Z * Push.Action) :=
  [(10, Push.Request Push.Connect 0);     (* startPolling, GET pending *)
   (20, Push.Request Push.SnapshotJpg 1); (* no interval yet: startPolling *)
   (30, Push.Completes 0 up);             (* first GET answered *)
   (40, Push.Completes 0 up);             (* second GET answered *)
   (50, Push.Completes 0 up);             (* first write: setInterval *)
   (60, Push.Completes 0 up);             (* second write: setInterval *)
   (70, Push.Completes 0 up)].            (* file read, image served *)

Definition raced : Push.Sys :=
  Push.exec cfg0 race (Push.boot cfg0 env_up None 0).

(** The same with the two signals of [server.js] alone: connect, disconnect
    and connect again before the first poll has heard from the camera. *)
Definition race_signals : list (Z * Push.Action) :=
  [(10, Push.Request Push.Connect 0);
   (20, Push.Request Push.Disconnect 1);
   (30, Push.Request Push.Connect 2);
   (40, Push.Completes 0 up);
   (50, Push.Completes 0 up);
   (60, Push.Completes 0 up);
   (70, Push.Completes 0 up)].

Definition raced_signals : Push.Sys :=
  Push.exec cfg0 race_signals (Push.boot cfg0 env_up None 0).

(** A connect signal, then the disconnect signal of the same client while
    the first poll of the connect is still waiting for the camera. *)
Definition hangup : list (Z * Push.Action) :=
  [(10, Push.Request Push.Connect 0);    (* startPolling, GET pending *)
   (20, Push.Request Push.Disconnect 1); (* count 0; no interval to clear *)
   (30, Push.Completes 0 up);            (* GET answered *)
   (40, Push.Completes 0 up)].           (* write done: setInterval *)

Definition hung : Push.Sys :=
  Push.exec cfg0 hangup (Push.boot cfg0 env_up None 0).

(** The interval fires later on and its poll runs to its end. *)
Definition firing : list (Z * Push.Action) :=
  [(5040, Push.Interval 0%nat);
   (5050, Push.Completes 0 up);
   (5060, Push.Completes 0 up)].

(** One snapshot request served, nobody connected: polling, no client. *)
Definition unwatched : Push.Sys :=
  Push.exec cfg0
    [(10, Push.Request Push.SnapshotJpg 0);
     (20, Push.Completes 0 up);
     (30, Push.Completes 0 up);
     (40, Push.Completes 0 up)]
    (Push.boot cfg0 env_up None 0).

(** The camera does not answer the vendor GET but serves ONVIF snapshots. *)
Definition onvif_only : Answer :=
  {| camera_http := None; camera_init := true;
     camera_snapshot := Some ("image/jpeg"%string, jpg);
     disk_write := true; disk_torn := None; disk_read := true;
     disk_mkdir := true |}.

(** The ONVIF snapshot comes with a content type that is not exactly
    image/jpeg. *)
Definition onvif_charset : Answer :=
  {| camera_http := None; camera_init := true;
     camera_snapshot := Some ("image/jpeg; charset=binary"%string, jpg);
     disk_write := true; disk_torn := None; disk_read := true;
     disk_mkdir := true |}.

(** The camera answers the GET but the disk is full: the file is opened,
    hence emptied, and nothing can be put in it. *)
Definition disk_full : Answer :=
  {| camera_http := Some jpg; camera_init := true;
     camera_snapshot := None;
     disk_write := false; disk_torn := Some O; disk_read := true;
     disk_mkdir := true |}.

(** The camera is unreachable; the disk works. *)
Definition camera_off : Answer :=
  {| camera_http := None; camera_init := false; camera_snapshot := None;
     disk_write := true; disk_torn := None; disk_read := true;
     disk_mkdir := true |}.

Definition env_camera_off : Env := fun n => (Z.of_nat n, camera_off).

Definition env_onvif_only : Env := fun n => (Z.of_nat n, onvif_only).
Definition env_onvif_charset : Env := fun n => (Z.of_nat n, onvif_charset).
Definition env_disk_full : Env := fun n => (Z.of_nat n, disk_full).

(** The server after start(), the camera being up. *)
Definition started_up : State :=
  snd (run env_up (start cfg0) (initial None 0)).

(** ** Further observations *)

(** The module-level variables and the interval table are in [s'] what they
    are in [s]; the file, the clock and the trace may differ. *)
Definition same_variables (s s' : State) : Prop :=
  lastSnapshotRequest s' = lastSnapshotRequest s
  /\ connectedClients s' = connectedClients s
  /\ pollingInterval s' = pollingInterval s
  /\ device s' = device s
  /\ timers s' = timers s
  /\ next_timer s' = next_timer s.

(** What the world answers to the k-th operation issued from [s] on. *)
Definition answer_at (env : Env) (s : State) (k : nat) : Answer :=
  snd (env (List.length (trace s) + k)%nat).

(** The responses sent, with the request they answer. *)
Fixpoint responses (tr : list Event) : list (nat * Response) :=
  match tr with
  | [] => []
  | EvResponse res r :: tr => (res, r) :: responses tr
  | _ :: tr => responses tr
  end.

(** [p], started in [s], finds [I] at each of its suspensions and establishes
    [Q] at its end, given that [I] holds whenever it is resumed: between a
    suspension and the resumption other handlers have run. *)
Fixpoint wp {A : Type} (I : State -> Prop) (p : Async A)
    (Q : A -> State -> Prop) (s : State) : Prop :=
  match p with
  | Ret a => Q a s
  | Get k => wp I (k s) Q s
  | Put f k => wp I k Q (f s)
  | Await io k => I s /\ forall r s', I s' -> wp I (k r) Q s'
  end.

(** [I] holds now and every suspended handler, resumed where [I] holds, keeps
    it. *)
Definition settled (I : State -> Prop) (y : Push.Sys) : Prop :=
  I (Push.st y)
  /\ Forall (fun k : Push.Task =>
               forall r s', I s' -> wp I (snd k r) (fun _ => I) s')
       (Push.waiting y).

(** The scheduled intervals have distinct handles, all handed out already,
    and pollingInterval, when set, names one of them. *)
Definition timers_ok (s : State) : Prop :=
  NoDup (timers s)
  /\ (forall h, In h (timers s) -> (h < next_timer s)%nat)
  /\ (forall h, pollingInterval s = Some h -> In h (timers s)).

(** One turn of a server in which nothing overlaps: a request handled to its
    end, a firing of the poll interval [h] run to its end, or the inactivity
    check. *)
Inductive Turn :=
| Serve (r : Push.Route) (res : nat)
| Fire (h : Timeout)
| Inactivity.

Definition turn_program (cfg : Config) (s : State) (u : Turn)
    : option (Async unit) :=
  match u with
  | Serve r res => Some (Push.handler cfg r res)
  | Fire h =>
      if existsb (Nat.eqb h) (timers s) then Some (Push.poll_tick cfg)
      else None
  | Inactivity => Some (Push.inactivity_check cfg)
  end.

Definition turn_action (u : Turn) : Push.Action :=
  match u with
  | Serve r res => Push.Request r res
  | Fire h => Push.Interval h
  | Inactivity => Push.InactivityTimer
  end.

(** The state after the turn [u] at time [t]. *)
Definition turn (cfg : Config) (env : Env) (s : State) (tu : Z * Turn)
    : State :=
  match turn_program cfg s (snd tu) with
  | Some p => snd (run env p (set_now (fst tu) s))
  | None => s
  end.

Definition serial (cfg : Config) (env : Env) (turns : list (Z * Turn))
    (s : State) : State :=
  fold_left (turn cfg env) turns s.

(** The inputs of the event loop that make up the turn. *)
Definition script (cfg : Config) (env : Env) (s : State) (tu : Z * Turn)
    : list (Z * Push.Action) :=
  (fst tu, turn_action (snd tu))
  :: match turn_program cfg s (snd tu) with
     | Some p => Push.alone env p (set_now (fst tu) s)
     | None => []
     end.

(** The inputs of a sequence of turns from [s] on. *)
Fixpoint scripts (cfg : Config) (env : Env) (turns : list (Z * Turn))
    (s : State) : list (Z * Push.Action) :=
  match turns with
  | [] => []
  | tu :: turns =>
      script cfg env s tu ++ scripts cfg env turns (turn cfg env s tu)
  end.

(** What startPolling, run to its end, does to the variables. *)
Definition started (s : State) : State :=
  match pollingInterval s with
  | Some _ => s
  | None =>
      set_pollingInterval (Some (next_timer s))
        (set_timers (timers s ++ [next_timer s]) (S (next_timer s)) s)
  end.

(** What stopPolling does. *)
Definition stopped (s : State) : State :=
  match pollingInterval s with
  | None => s
  | Some h =>
      set_pollingInterval None
        (set_timers (remove Nat.eq_dec h (timers s)) (next_timer s) s)
  end.

(** The variables after the turn [u] at time [t]: what the camera and the
    disk answer has no part in them. *)
Definition variables_after (cfg : Config) (t : Z) (u : Turn) (s : State)
    : State :=
  match u with
  | Serve Push.SnapshotJpg _ => started (set_lastSnapshotRequest t s)
  | Serve (Push.SnapshotName _) _ => started (set_lastSnapshotRequest t s)
  | Serve Push.Connect _ =>
      let s1 := set_connectedClients (connectedClients s + 1) s in
      if connectedClients s1 =? 1 then started s1 else s1
  | Serve Push.Disconnect _ =>
      let s1 := set_connectedClients (Z.max 0 (connectedClients s - 1)) s in
      if connectedClients s1 =? 0 then stopped s1 else s1
  | Serve Push.TestSnapshot _ => s
  | Fire _ => s
  | Inactivity =>
      match pollingInterval s with
      | Some _ =>
          if (t - lastSnapshotRequest s >? INACTIVITY_TIMEOUT cfg)
             && (connectedClients s =? 0)
          then stopped s else s
      | None => s
      end
  end.

(** Between [s] and [s'] the trace has grown and the responses sent are
    [l]. *)
Definition sends (s s' : State) (l : list (nat * Response)) : Prop :=
  exists tr, trace s' = trace s ++ tr /\ responses tr = l.

(** Exactly the interval named by pollingInterval is scheduled. *)
Definition one_timer (s : State) : Prop :=
  timers s = match pollingInterval s with
             | Some h => [h]
             | None => []
             end.

(** The count is not negative and, while a client is counted, the poller is
    Polling. *)
Definition watched (s : State) : Prop :=
  0 <= connectedClients s
  /\ (0 < connectedClients s -> pollingInterval s <> None).

(** The count is not negative and the poller is Polling exactly while a
    client is counted. *)
Definition polls_iff_watched (s : State) : Prop :=
  0 <= connectedClients s
  /\ (0 < connectedClients s <-> pollingInterval s <> None).

(** The turns [server.js] has: the two signals and the poll interval. *)
Definition signal (tu : Z * Turn) : Prop :=
  match snd tu with
  | Serve Push.Connect _ => True
  | Serve Push.Disconnect _ => True
  | Fire _ => True
  | _ => False
  end.

(** The character that ends the rs parameter in the direct URL. *)
Definition ampersand : Ascii.ascii :=
  Ascii.Ascii false true true false false true false false.

(** Whether the character [c] occurs in [s]. *)
Fixpoint occurs (c : Ascii.ascii) (s : string) : bool :=
  match s with
  | EmptyString => false
  | String c' s' => Ascii.eqb c c' || occurs c s'
  end.

(** The poller Polling after one connect, handled alone. *)
Definition polling_one_client : State :=
  snd (run env_up (Push.connect cfg0 1) started_up).

(** * Theorems *)

Arguments directUrl : simpl never.
Arguments since : simpl never.
Arguments String.eqb : simpl never.
Arguments writeFile a data s /.
Arguments fetchSnapshot a s /.
Arguments init a s /.

Lemma run_bind {A B : Type} (env : Env) (m : Async A) (f : A -> Async B) :
  forall s,
    run env (bind m f) s =
    let '(a, s') := run env m s in run env (f a) s'.
Proof.
  induction m as [a | k IH | g k IH | io k IH]; intros s; cbn.
  - reflexivity.
  - apply IH.
  - apply IH.
  - destruct (env (List.length (trace s))) as [t a].
    destruct (perform t a io s) as [r s'].
    apply IH.
Qed.

Lemma skipn_exact {A : Type} (l l' : list A) :
  skipn (List.length l) (l ++ l') = l'.
Proof.
  rewrite skipn_app, skipn_all, Nat.sub_diag. reflexivity.
Qed.

Lemma since_trans (s s1 s2 : State) :
  trace s1 = trace s ++ since s s1 ->
  trace s2 = trace s1 ++ since s1 s2 ->
  since s s2 = since s s1 ++ since s1 s2.
Proof.
  intros H1 H2. unfold since at 1.
  rewrite H2, H1, <- app_assoc. apply skipn_exact.
Qed.

Lemma stored_app (l l' : list Event) :
  stored (l ++ l') = stored l ++ stored l'.
Proof.
  induction l as [| e l IH]; [reflexivity |].
  destruct e as [[| d | | | |] [| | |] |]; cbn; rewrite IH; reflexivity.
Qed.

(** Case analysis on everything a run depends on: whether [device] is set,
    what the environment answers, the content type, whether the file is
    there. *)
Ltac crunch env :=
  repeat (cbn;
    match goal with
    | |- context [match device ?s with _ => _ end] =>
        destruct (device s) eqn:?
    | |- context [env ?n] => destruct (env n) as [? [? ? ? ? ? ? ?]]
    | |- context [String.eqb ?a ?b] => destruct (String.eqb a b) eqn:?
    | |- context [perform _ _ _ _] => unfold perform
    | |- context [match file ?s with _ => _ end] => destruct (file s) eqn:?
    | |- context [if session ?s then _ else _] => destruct (session s) eqn:?
    | |- context [match ?x with _ => _ end] =>
        is_var x;
        lazymatch type of x with
        | option (_ * _) => destruct x as [[? ?] |]
        | _ => destruct x
        end
    end);
  cbn; try congruence.

(** Turn [since s s'] into the list of events [s'] added. *)
Ltac observe :=
  unfold since; cbn;
  rewrite <- ?app_assoc, ?skipn_exact, ?skipn_all; cbn.

(** Close a goal made of equivalences between decided facts. *)
Ltac settle :=
  repeat split; intros;
  repeat match goal with
         | H : _ /\ _ |- _ => destruct H
         | H : exists _, _ |- _ => destruct H
         | H : _ \/ _ |- _ => destruct H
         end;
  try discriminate; try congruence; eauto.

(** The file after a write that failed: as it was, or cut. *)
Ltac torn :=
  first [ left; reflexivity
        | right; do 2 eexists; split; [left; reflexivity | reflexivity] ].

Lemma attempted_app (l l' : list Event) :
  attempted (l ++ l') = attempted l ++ attempted l'.
Proof.
  induction l as [| e l IH]; [reflexivity |].
  destruct e as [[| d | | | |] r |]; cbn; rewrite IH; reflexivity.
Qed.

(** ** The fetchers and the coordinator *)

Section Acquisition.

Variable cfg : Config.
Variable env : Env.

Lemma getSnapshotDirect_reports (s : State) :
  reports_write (getSnapshotDirect cfg) env s.
Proof.
  unfold reports_write, getSnapshotDirect, updated, not_updated.
  crunch env; observe; settle; torn.
Qed.

Lemma getSnapshotONVIF_reports (s : State) :
  reports_write getSnapshotONVIF env s.
Proof.
  unfold reports_write, getSnapshotONVIF, updated, not_updated.
  crunch env; observe; settle; torn.
Qed.

(** When [device] is null the ONVIF fetch answers false at once: nothing is
    awaited and the state is the one it was called in. *)
Lemma getSnapshotONVIF_no_device (s : State) :
  device s = None -> run env getSnapshotONVIF s = (false, s).
Proof.
  intros H. unfold getSnapshotONVIF. cbn. rewrite H. reflexivity.
Qed.

(** The trace of a fetcher extends the trace it started from. *)
Lemma getSnapshotDirect_trace (s : State) :
  let s' := snd (run env (getSnapshotDirect cfg) s) in
  trace s' = trace s ++ since s s'.
Proof.
  unfold getSnapshotDirect.
  crunch env; observe; rewrite <- ?app_assoc, ?app_nil_r; reflexivity.
Qed.

Lemma getSnapshotONVIF_trace (s : State) :
  let s' := snd (run env getSnapshotONVIF s) in
  trace s' = trace s ++ since s s'.
Proof.
  unfold getSnapshotONVIF.
  crunch env; observe; rewrite <- ?app_assoc, ?app_nil_r; reflexivity.
Qed.

(** What each fetcher asks for: the direct fetch starts with the GET and
    asks the device nothing; the ONVIF fetch issues no GET and calls the
    device when there is one. *)
Lemma getSnapshotDirect_chain (s : State) :
  let s1 := snd (run env (getSnapshotDirect cfg) s) in
  (exists r rest,
      since s s1 = EvIo (axios_get (directUrl cfg (now s))) r :: rest
      /\ existsb is_direct rest = false
      /\ existsb is_onvif rest = false)
  /\ device s1 = device s.
Proof.
  unfold getSnapshotDirect.
  crunch env; observe;
    (split; [eexists; eexists; repeat split | reflexivity]).
Qed.

Lemma getSnapshotONVIF_chain (s : State) :
  let s2 := snd (run env getSnapshotONVIF s) in
  existsb is_direct (since s s2) = false
  /\ existsb is_onvif (since s s2) =
     match device s with Some _ => true | None => false end.
Proof.
  unfold getSnapshotONVIF.
  crunch env; observe; split; reflexivity.
Qed.

Lemma existsb_filter {A : Type} (f : A -> bool) (l : list A) :
  existsb f l = false -> filter f l = [].
Proof.
  induction l as [| a l IH]; cbn; [reflexivity |].
  destruct (f a); cbn; [discriminate | exact IH].
Qed.

Lemma pollSnapshot_run (s : State) :
  run env (Push.pollSnapshot cfg) s =
  let '(d, s1) := run env (getSnapshotDirect cfg) s in
  if d then (undefined, s1)
  else (undefined, snd (run env getSnapshotONVIF s1)).
Proof.
  unfold Push.pollSnapshot. rewrite run_bind.
  destruct (run env (getSnapshotDirect cfg) s) as [[|] s1].
  - reflexivity.
  - rewrite run_bind.
    destruct (run env getSnapshotONVIF s1) as [o s2]. reflexivity.
Qed.

Lemma getSnapshot_run (s : State) :
  run env (OnDemand.getSnapshot cfg) s =
  let '(d, s1) := run env (getSnapshotDirect cfg) s in
  if d then (boolean true, s1)
  else let '(o, s2) := run env getSnapshotONVIF s1 in (boolean o, s2).
Proof.
  unfold OnDemand.getSnapshot. rewrite run_bind.
  destruct (run env (getSnapshotDirect cfg) s) as [[|] s1].
  - reflexivity.
  - rewrite run_bind.
    destruct (run env getSnapshotONVIF s1) as [o s2]. reflexivity.
Qed.

Lemma pollSnapshot_adds_nothing (s : State) :
  adds_nothing cfg (Push.pollSnapshot cfg) env s.
Proof.
  unfold adds_nothing. rewrite pollSnapshot_run.
  destruct (run env (getSnapshotDirect cfg) s) as [[|] s1]; reflexivity.
Qed.

Lemma getSnapshot_adds_nothing (s : State) :
  adds_nothing cfg (OnDemand.getSnapshot cfg) env s.
Proof.
  unfold adds_nothing. rewrite getSnapshot_run.
  destruct (run env (getSnapshotDirect cfg) s) as [[|] s1];
    [| destruct (run env getSnapshotONVIF s1)]; reflexivity.
Qed.

(** Two stretches in which no write went through make one. *)
Lemma not_updated_trans (s s1 s2 : State) :
  trace s1 = trace s ++ since s s1 ->
  trace s2 = trace s1 ++ since s1 s2 ->
  not_updated s s1 -> not_updated s1 s2 -> not_updated s s2.
Proof.
  intros T1 T2 [S1 F1] [S2 F2]. unfold not_updated.
  rewrite (since_trans s s1 s2 T1 T2), stored_app, attempted_app, S1, S2.
  split; [reflexivity |].
  destruct F2 as [F2 | (data & n & Hin & F2)].
  - rewrite F2. destruct F1 as [F1 | (data & n & Hin & F1)].
    + left. exact F1.
    + right. exists data, n. split; [| exact F1].
      apply in_or_app. left. exact Hin.
  - right. exists data, n. split; [| exact F2].
    apply in_or_app. right. exact Hin.
Qed.

Lemma not_updated_then_updated (s s1 s2 : State) :
  trace s1 = trace s ++ since s s1 ->
  trace s2 = trace s1 ++ since s1 s2 ->
  not_updated s s1 -> updated s1 s2 -> updated s s2.
Proof.
  intros T1 T2 [S1 _] (data & S2 & F2). exists data.
  rewrite (since_trans s s1 s2 T1 T2), stored_app, S1, S2.
  split; [reflexivity | exact F2].
Qed.

(** What the two fetchers, one after the other, did to the file. *)
Lemma fallback_store (s s1 s2 : State) (d o : bool) :
  run env (getSnapshotDirect cfg) s = (d, s1) ->
  run env getSnapshotONVIF s1 = (o, s2) ->
  (d = true -> updated s s1)
  /\ (d = false -> o = true -> updated s s2)
  /\ (d = false -> o = false -> not_updated s s2).
Proof.
  intros Hd Ho.
  pose proof (getSnapshotDirect_reports s) as Wd.
  pose proof (getSnapshotONVIF_reports s1) as Wo.
  pose proof (getSnapshotDirect_trace s) as Td.
  pose proof (getSnapshotONVIF_trace s1) as To.
  unfold reports_write in Wd, Wo.
  rewrite Hd in Wd, Td. rewrite Ho in Wo, To. cbn in Td, To.
  split; [apply Wd |]. split.
  - intros E1 E2.
    apply (not_updated_then_updated s s1 s2 Td To);
      [apply Wd, E1 | apply Wo, E2].
  - intros E1 E2.
    apply (not_updated_trans s s1 s2 Td To);
      [apply Wd, E1 | apply Wo, E2].
Qed.

Lemma updated_not_both (s s' : State) :
  updated s s' -> not_updated s s' -> False.
Proof. intros (data & H & _) [H' _]. congruence. Qed.

(** C1 (amended).  getSnapshot (on-demand variant) returns true, the
    snapshot file holding the bytes written, iff one of the two fetchers
    returns true; it returns false, no write having gone through, iff both
    return false.  In that case the file is as it was, unless a write was
    attempted and failed after it had opened the file: the file is then left
    with the first bytes of what was being written, possibly none.
    pollSnapshot (push variant) has the same effect on the file but returns
    no value: its result is undefined in both cases. *)
Theorem acquisition_outcome (s : State) :
  acquire_outcome cfg (OnDemand.getSnapshot cfg) env s
  /\ (let '(d, s1) := run env (getSnapshotDirect cfg) s in
      let o := fst (run env getSnapshotONVIF s1) in
      let '(v, s') := run env (Push.pollSnapshot cfg) s in
      v = undefined
      /\ (updated s s' <-> (d = true \/ o = true))
      /\ (not_updated s s' <-> (d = false /\ o = false))).
Proof.
  unfold acquire_outcome.
  rewrite getSnapshot_run, pollSnapshot_run.
  destruct (run env (getSnapshotDirect cfg) s) as [d s1] eqn:Hd.
  destruct (run env getSnapshotONVIF s1) as [o s2] eqn:Ho.
  destruct (fallback_store s s1 s2 d o Hd Ho) as (U1 & U2 & U3).
  pose proof (updated_not_both s s1) as X1.
  pose proof (updated_not_both s s2) as X2.
  destruct d, o; cbn; settle;
    try (exfalso; eauto; fail); apply (U3 eq_refl eq_refl).
Qed.

(** A coordinator that ends where its fetchers end follows the fallback
    chain and makes one acquisition. *)
Lemma acquisition_chain (acq : Async value) (s : State) :
  adds_nothing cfg acq env s ->
  let s' := snd (run env acq s) in
  fallback_chain cfg acq env s
  /\ trace s' = trace s ++ since s s'
  /\ acquisitions (since s s') = 1%nat.
Proof.
  unfold adds_nothing, fallback_chain. cbv zeta.
  pose proof (getSnapshotDirect_chain s) as Cd.
  pose proof (getSnapshotDirect_trace s) as Td.
  destruct (run env (getSnapshotDirect cfg) s) as [d s1].
  cbn [fst snd] in *.
  pose proof (getSnapshotONVIF_chain s1) as Co.
  pose proof (getSnapshotONVIF_trace s1) as To.
  intros ->.
  destruct Cd as ((r & rest & E & Hd1 & Hd2) & Hdev).
  destruct d.
  - split; [| split; [exact Td |]].
    + split; [exists r, rest; auto |].
      split; [| reflexivity].
      rewrite E. cbn. exact Hd2.
    + rewrite E. unfold acquisitions. cbn.
      rewrite (existsb_filter _ _ Hd1). reflexivity.
  - cbv zeta in Co, To.
    set (s2 := snd (run env getSnapshotONVIF s1)) in *.
    destruct Co as [Co1 Co2].
    pose proof (since_trans s s1 s2 Td To) as Es.
    split; [| split].
    + split; [exists r, (rest ++ since s1 s2) |].
      * split; [rewrite Es, E; reflexivity |].
        rewrite existsb_app, Hd1, Co1. reflexivity.
      * split; [| exact I].
        rewrite Es, E. cbn. rewrite existsb_app, Hd2, Co2, Hdev.
        reflexivity.
    + rewrite Es, app_assoc, <- Td. exact To.
    + rewrite Es, E. unfold acquisitions. cbn.
      rewrite filter_app, (existsb_filter _ _ Hd1),
        (existsb_filter _ _ Co1).
      reflexivity.
Qed.

(** C2.  An acquisition (pollSnapshot, getSnapshot) first issues the GET of
    the direct fetch, and calls the ONVIF fetchSnapshot exactly when the
    direct fetch returned false (and a device object exists): never when
    the direct fetch succeeded. *)
Theorem direct_before_onvif (s : State) :
  fallback_chain cfg (Push.pollSnapshot cfg) env s
  /\ fallback_chain cfg (OnDemand.getSnapshot cfg) env s.
Proof.
  split; apply acquisition_chain;
    [apply pollSnapshot_adds_nothing | apply getSnapshot_adds_nothing].
Qed.


End Acquisition.

(** ** Serving the file *)

Section Serving.

Variable cfg : Config.
Variable env : Env.

Lemma getSnapshot_trace (s : State) :
  let s1 := snd (run env (OnDemand.getSnapshot cfg) s) in
  trace s1 = trace s ++ since s s1 /\ acquisitions (since s s1) = 1%nat.
Proof.
  apply (acquisition_chain cfg env (OnDemand.getSnapshot cfg) s).
  apply getSnapshot_adds_nothing.
Qed.

Lemma serveSnapshot_trace (res : nat) (s : State) :
  let s' := snd (run env (serveSnapshot res) s) in
  let r := read_store (snd (env (List.length (trace s)))) s in
  trace s' = trace s ++ since s s'
  /\ since s s' = [EvIo fs_readFile r; EvResponse res (response_for r)].
Proof.
  unfold serveSnapshot, read_store.
  crunch env; observe; rewrite <- ?app_assoc; split; reflexivity.
Qed.

Lemma acquisitions_app (l l' : list Event) :
  acquisitions (l ++ l') = (acquisitions l + acquisitions l')%nat.
Proof.
  unfold acquisitions. rewrite filter_app. apply length_app.
Qed.

Lemma acquire_then_serve (res : nat) (s : State) :
  serves_after_one_acquisition cfg
    (_ <- OnDemand.getSnapshot cfg ;; serveSnapshot res) res env s.
Proof.
  unfold serves_after_one_acquisition.
  rewrite run_bind.
  pose proof (getSnapshot_trace s) as [T1 A1].
  destruct (run env (OnDemand.getSnapshot cfg) s) as [v s1].
  cbn [snd] in *.
  pose proof (serveSnapshot_trace res s1) as (T2 & E).
  set (s' := snd (run env (serveSnapshot res) s1)) in *.
  assert (Happ : since s s' = since s s1 ++ since s1 s')
    by (apply since_trans; assumption).
  split; [| split; [exact Happ | exact E]].
  rewrite Happ, acquisitions_app, A1, E. reflexivity.
Qed.

(** C7.  In the on-demand variant both snapshot routes (/snapshot.jpg and
    /snapshot/:name.jpg) make exactly one acquisition, which has run to its
    end when the file is read, and the response is made from what the file
    then holds: the image when the file can be read, the 500 diagnostic
    otherwise. *)
Theorem on_demand_acquires_once (name : string) (res : nat) (s : State) :
  serves_after_one_acquisition cfg (OnDemand.snapshot_jpg cfg res) res env s
  /\ serves_after_one_acquisition cfg
       (OnDemand.snapshot_name cfg name res) res env s.
Proof.
  split; apply acquire_then_serve.
Qed.


End Serving.


(** Whatever device.init reports, start() leaves a device object in
    [device]: the variable is null only before start() runs. *)
Lemma start_sets_device (cfg : Config) (env : Env) (f : option bytes) (t : Z) :
  device (snd (run env (start cfg) (initial f t))) <> None.
Proof.
  unfold start, ensureDirectories, initializeDevice.
  crunch env; discriminate.
Qed.

(** When device.init reports an error, start() leaves the device object
    without a session. *)
Lemma start_failed_init
    (cfg : Config) (env : Env) (f : option bytes) (t0 : Z) :
  camera_init (snd (env 1%nat)) = false ->
  session (snd (run env (start cfg) (initial f t0))) = false.
Proof.
  intros H. unfold start, ensureDirectories, initializeDevice. cbn.
  destruct (env 0%nat) as [t a]. unfold perform. cbn.
  destruct (env 1%nat) as [t1 a1]. cbn in H.
  unfold perform. cbn. rewrite H. reflexivity.
Qed.

(** C3.  When there is no session with the device, getSnapshotONVIF returns
    false at once and nothing is sent to the camera, whatever the camera
    would answer: no request goes out, no write is attempted, the file is as
    it was.  That is so when [device] is null, where nothing is called at
    all; when the device object has no session, where the call of
    device.fetchSnapshot reports an error at once; and in particular in the
    state start() leaves when device.init has reported an error: no later
    fetch connects again. *)
Theorem onvif_fetch_without_session
    (cfg : Config) (env env0 : Env) (f : option bytes) (t0 : Z) (s : State) :
  device s = None
  \/ session s = false
  \/ (s = snd (run env0 (start cfg) (initial f t0))
      /\ camera_init (answer_at env0 (initial f t0) 1) = false) ->
  let '(o, s') := run env getSnapshotONVIF s in
  o = false
  /\ exchanges s' = exchanges s
  /\ file s' = file s
  /\ attempted (since s s') = []
  /\ since s s' = match device s with
                  | None => []
                  | Some d => [EvIo (device_fetchSnapshot d) Failed]
                  end.
Proof.
  intros H.
  assert (Hs : device s = None \/ session s = false).
  { destruct H as [H | [H | [-> H]]]; [left; exact H | right; exact H |].
    right. apply start_failed_init. exact H. }
  clear H. destruct (device s) as [d |] eqn:Hd.
  - destruct Hs as [Hs | Hs]; [discriminate Hs |].
    unfold getSnapshotONVIF. cbn. rewrite Hd. cbn.
    destruct (env (List.length (trace s))) as [t a].
    unfold perform. cbn. rewrite Hs. cbn. observe. repeat split.
  - rewrite (getSnapshotONVIF_no_device env s Hd).
    unfold since. rewrite skipn_all. repeat split.
Qed.

Lemma onvif_fetch_without_session_witness :
  camera_init (answer_at env_down (initial None 0) 1) = false
  /\ device started_down = Some dev0
  /\ fst (run env_up getSnapshotONVIF started_down) = false
  /\ exchanges (snd (run env_up getSnapshotONVIF started_down)) =
     exchanges started_down.
Proof.
  pose proof (onvif_fetch_without_session cfg0 env_up env_down None 0
                started_down
                (or_intror (or_intror (conj eq_refl eq_refl)))) as H.
  destruct (run env_up getSnapshotONVIF started_down) as [o s'].
  destruct H as (H1 & H2 & _).
  split; [reflexivity |]. split; [reflexivity |]. split; assumption.
Defined.

(** C1, as stated, fails for pollSnapshot: with a camera that answers, the
    direct fetch succeeds and pollSnapshot still does not return true. *)
Lemma pollSnapshot_returns_no_value :
  ~ acquire_contract cfg0 (Push.pollSnapshot cfg0) env_up (initial None 0).
Proof.
  vm_compute. intros [[_ H] _].
  destruct (H (or_introl eq_refl)) as [E _]. discriminate E.
Qed.

(** The writes are made in place: with a full disk both fetchers return
    false and the snapshot that was on disk is gone, so that getSnapshot
    too does not leave the file untouched whenever it returns false. *)
Lemma getSnapshot_false_truncates :
  ~ acquire_contract cfg0 (OnDemand.getSnapshot cfg0) env_disk_full
      (initial (Some [Byte.x00]) 0).
Proof.
  vm_compute. intros [_ [_ H]].
  destruct (H (conj eq_refl eq_refl)) as [_ [_ E]]. discriminate E.
Qed.


(** ** Invariants of the event loop *)

Section Respects.

Variable P : State -> Prop.
Hypothesis P_perform :
  forall t a io s, P s -> P (snd (perform t a io s)).
Hypothesis P_now : forall t s, P s -> P (set_now t s).
Hypothesis P_file : forall v s, P s -> P (set_file v s).

Lemma respects_bind {A B : Type} (m : Async A) (f : A -> Async B) :
  respects P m -> (forall a, respects P (f a)) -> respects P (bind m f).
Proof.
  intros Hm Hf.
  induction Hm as [a | k _ IH | g k Hg _ IH | io k _ IH]; cbn.
  - apply Hf.
  - apply respects_Get. exact IH.
  - apply respects_Put; assumption.
  - apply respects_Await. exact IH.
Qed.

Lemma run_respects {A : Type} (env : Env) (p : Async A) :
  respects P p -> forall s, P s -> P (snd (run env p s)).
Proof.
  induction 1 as [a | k _ IH | g k Hg _ IH | io k _ IH]; intros s Hs; cbn.
  - exact Hs.
  - apply IH, Hs.
  - apply IH, Hg, Hs.
  - destruct (env (List.length (trace s))) as [t a].
    pose proof (P_perform t a io s Hs) as Hp.
    destruct (perform t a io s) as [r s']. apply IH, Hp.
Qed.

Lemma advance_respects (p : Async unit) :
  respects P p ->
  forall s, P s -> keeps P {| Push.st := fst (Push.advance p s);
                              Push.waiting := snd (Push.advance p s) |}.
Proof.
  unfold keeps.
  induction 1 as [a | k _ IH | g k Hg _ IH | io k Hk _]; intros s Hs; cbn.
  - split; [exact Hs | constructor].
  - apply IH, Hs.
  - apply IH, Hg, Hs.
  - split; [exact Hs |]. constructor; [exact Hk | constructor].
Qed.

Lemma spawn_keeps (p : Async unit) (y : Push.Sys) :
  respects P p -> keeps P y -> keeps P (Push.spawn p y).
Proof.
  intros Hp [Hs Hw]. unfold Push.spawn.
  destruct (advance_respects p Hp (Push.st y) Hs) as [Hs' Hw'].
  cbn in Hs', Hw'.
  destruct (Push.advance p (Push.st y)) as [s' t']. cbn in *.
  split; [exact Hs' | apply Forall_app; split; assumption].
Qed.

Lemma remove_nth_Forall {A : Type} (Q : A -> Prop) (i : nat) (l : list A) :
  Forall Q l -> Forall Q (Push.remove_nth i l).
Proof.
  intros H. revert i. unfold Push.remove_nth.
  induction H as [| a l Ha Hl IH]; intros [| i]; cbn.
  - constructor.
  - constructor.
  - exact Hl.
  - constructor; [exact Ha | apply IH].
Qed.

Variable cfg : Config.
Hypothesis handler_ok : forall r res, respects P (Push.handler cfg r res).
Hypothesis poll_ok : respects P (Push.poll_tick cfg).
Hypothesis check_ok : respects P (Push.inactivity_check cfg).

Lemma step_keeps (y : Push.Sys) (ta : Z * Push.Action) :
  keeps P y -> keeps P (Push.step cfg y ta).
Proof.
  intros Hy. destruct ta as [t [r res | i a | i n | h |]];
    unfold Push.step; cbv beta iota zeta.
  - apply spawn_keeps; [apply handler_ok |].
    destruct Hy as [Hs Hw]. split; [apply P_now, Hs | exact Hw].
  - destruct (nth_error (Push.waiting y) i) as [[io k] |] eqn:Hn;
      [| exact Hy].
    destruct Hy as [Hs Hw].
    pose proof (P_perform t a io _ Hs) as Hp.
    destruct (perform t a io (Push.st y)) as [r s'].
    apply spawn_keeps.
    + rewrite Forall_forall in Hw.
      apply (Hw (io, k)). eapply nth_error_In, Hn.
    + split; [exact Hp | apply remove_nth_Forall, Hw].
  - destruct (nth_error (Push.waiting y) i) as [[[] k] |]; try exact Hy.
    destruct Hy as [Hs Hw]. split; [apply P_file, P_now, Hs | exact Hw].
  - destruct (existsb (Nat.eqb h) (timers (Push.st y))); [| exact Hy].
    apply spawn_keeps; [apply poll_ok |].
    destruct Hy as [Hs Hw]. split; [apply P_now, Hs | exact Hw].
  - apply spawn_keeps; [apply check_ok |].
    destruct Hy as [Hs Hw]. split; [apply P_now, Hs | exact Hw].
Qed.

Lemma exec_keeps (ins : list (Z * Push.Action)) :
  forall y, keeps P y -> keeps P (Push.exec cfg ins y).
Proof.
  unfold Push.exec.
  induction ins as [| ta ins IH]; intros y Hy; cbn.
  - exact Hy.
  - apply IH, step_keeps, Hy.
Qed.

End Respects.

(** [run] is the event loop when nothing interleaves. *)
Lemma run_alone (cfg : Config) (env : Env) (p : Async unit) :
  forall s,
    Push.exec cfg (Push.alone env p s)
      (Push.spawn p {| Push.st := s; Push.waiting := [] |}) =
    {| Push.st := snd (run env p s); Push.waiting := [] |}.
Proof.
  induction p as [a | k IH | g k IH | io k IH]; intros s.
  - reflexivity.
  - apply IH.
  - apply IH.
  - cbn [Push.alone run].
    destruct (env (List.length (trace s))) as [t a] eqn:He.
    destruct (perform t a io s) as [r s'] eqn:Hp.
    unfold Push.exec. cbn [fold_left].
    replace (Push.step cfg
               (Push.spawn (Await io k)
                  {| Push.st := s; Push.waiting := [] |})
               (t, Push.Completes 0 a))
      with (Push.spawn (k r) {| Push.st := s'; Push.waiting := [] |}).
    + apply IH.
    + unfold Push.step, Push.spawn at 2. cbn. rewrite Hp. reflexivity.
Qed.

(** ** The client count *)

Lemma perform_connectedClients (t : Z) (a : Answer) (io : Io) (s : State) :
  connectedClients (snd (perform t a io s)) = connectedClients s.
Proof.
  unfold perform.
  destruct a as [h i [[ct b] |] w [n |] r m], io; cbn;
    try destruct h; try destruct i; try destruct w; try destruct m;
    try (destruct r; [destruct (file s) |]);
    try destruct (session s); reflexivity.
Qed.

Lemma respects_get (P : State -> Prop) : respects P get.
Proof. apply respects_Get. intros s. apply respects_Ret. Qed.

Lemma respects_await (P : State -> Prop) (io : Io) : respects P (await io).
Proof. apply respects_Await. intros r. apply respects_Ret. Qed.

Lemma respects_modify (P : State -> Prop) (f : State -> State) :
  (forall s, P s -> P (f s)) -> respects P (modify f).
Proof. intros H. apply respects_Put; [exact H | apply respects_Ret]. Qed.

(** Walk through a program along its binds; an update of the variables
    leaves the proof that it keeps the client count non-negative. *)
Ltac walk :=
  repeat first
    [ apply respects_Ret
    | apply respects_get
    | apply respects_await
    | apply respects_modify; unfold clients_ok; intros ? ?; cbn in *; lia
    | apply (respects_bind clients_ok); [ | intros ? ]
    | progress cbv zeta
    | match goal with
      | |- respects _ (match ?x with _ => _ end) => destruct x
      | |- respects _ (?f _ _) => unfold f
      | |- respects _ (?f _) => unfold f
      | |- respects _ ?f => unfold f
      end ].

Section Clients.

Variable cfg : Config.

Lemma handler_clients_ok (r : Push.Route) (res : nat) :
  respects clients_ok (Push.handler cfg r res).
Proof.
  destruct r; cbn [Push.handler]; walk.
Qed.

Lemma poll_tick_clients_ok : respects clients_ok (Push.poll_tick cfg).
Proof. unfold Push.poll_tick. walk. Qed.

Lemma inactivity_check_clients_ok :
  respects clients_ok (Push.inactivity_check cfg).
Proof. unfold Push.inactivity_check. walk. Qed.

Lemma start_clients_ok : respects clients_ok (start cfg).
Proof. unfold start. walk. Qed.

Lemma reachable_clients_ok
    (env : Env) (f : option bytes) (t0 : Z) (ins : list (Z * Push.Action)) :
  keeps clients_ok (Push.exec cfg ins (Push.boot cfg env f t0)).
Proof.
  apply exec_keeps.
  - intros t a io s. unfold clients_ok.
    rewrite perform_connectedClients. trivial.
  - intros t s H. exact H.
  - intros v s H. exact H.
  - apply handler_clients_ok.
  - apply poll_tick_clients_ok.
  - apply inactivity_check_clients_ok.
  - split; [| constructor]. unfold Push.boot. cbn [Push.st].
    apply run_respects.
    + intros t a io s. unfold clients_ok.
      rewrite perform_connectedClients. trivial.
    + apply start_clients_ok.
    + unfold clients_ok. cbn. lia.
Qed.

Lemma connect_increments (y : Push.Sys) (t : Z) (res : nat) :
  connectedClients
    (Push.st (Push.step cfg y (t, Push.Request Push.Connect res))) =
  connectedClients (Push.st y) + 1.
Proof.
  unfold Push.step, Push.spawn, Push.tick, Push.handler, Push.connect,
    Push.startPolling.
  cbn.
  destruct (connectedClients (Push.st y) + 1 =? 1); cbn;
    [destruct (pollingInterval (Push.st y)); cbn |]; reflexivity.
Qed.

Lemma disconnect_decrements (y : Push.Sys) (t : Z) (res : nat) :
  let y' := Push.step cfg y (t, Push.Request Push.Disconnect res) in
  connectedClients (Push.st y') =
    Z.max 0 (connectedClients (Push.st y) - 1)
  /\ since (Push.st y) (Push.st y') =
     [EvResponse res
        (Push.clients_response "disconnected"
           (Z.max 0 (connectedClients (Push.st y) - 1)))].
Proof.
  unfold Push.step, Push.spawn, Push.tick, Push.handler, Push.disconnect,
    Push.stopPolling, Push.clearInterval.
  cbn.
  destruct (Z.max 0 (connectedClients (Push.st y) - 1) =? 0); cbn;
    [destruct (pollingInterval (Push.st y)); cbn |];
    observe; split; reflexivity.
Qed.

(** C9.  In every state the push server reaches the client count is not
    negative; a connect signal adds one to it; a disconnect signal takes
    one off, not going under zero, and answers as usual; at zero the
    disconnect leaves the count at zero. *)
Theorem connectedClients_clamped
    (env : Env) (f : option bytes) (t0 : Z) (ins : list (Z * Push.Action))
    (t : Z) (res : nat) :
  let y := Push.exec cfg ins (Push.boot cfg env f t0) in
  let c := connectedClients (Push.st y) in
  let yc := Push.step cfg y (t, Push.Request Push.Connect res) in
  let yd := Push.step cfg y (t, Push.Request Push.Disconnect res) in
  0 <= c
  /\ connectedClients (Push.st yc) = c + 1
  /\ connectedClients (Push.st yd) = Z.max 0 (c - 1)
  /\ since (Push.st y) (Push.st yd) =
     [EvResponse res
        (Push.clients_response "disconnected" (Z.max 0 (c - 1)))]
  /\ (c = 0 -> connectedClients (Push.st yd) = 0).
Proof.
  intros y c yc yd.
  destruct (reachable_clients_ok env f t0 ins) as [Hc _].
  destruct (disconnect_decrements y t res) as [Hd Hr].
  fold y in Hc. unfold clients_ok in Hc. fold c in Hc, Hd, Hr.
  fold yd in Hd, Hr.
  split; [exact Hc |].
  split; [apply connect_increments |].
  split; [exact Hd |].
  split; [exact Hr |].
  intros E. rewrite Hd, E. reflexivity.
Qed.

End Clients.

Lemma connectedClients_clamped_witness :
  connectedClients (Push.st (Push.exec cfg0 [] (Push.boot cfg0 env_down None 0)))
  = 0
  /\ connectedClients
       (Push.st (Push.step cfg0
                   (Push.exec cfg0 [] (Push.boot cfg0 env_down None 0))
                   (5, Push.Request Push.Disconnect 1%nat))) = 0.
Proof.
  split; [reflexivity |].
  apply (connectedClients_clamped cfg0 env_down None 0 [] 5 1%nat).
  reflexivity.
Defined.

(** ** The poller *)

Section Poller.

Variable cfg : Config.

(** With an interval set, startPolling returns at once. *)
Lemma startPolling_already_polling (env : Env) (s : State) (h : Timeout) :
  pollingInterval s = Some h ->
  run env (Push.startPolling cfg) s = (tt, s).
Proof.
  intros H. unfold Push.startPolling. cbn. rewrite H. reflexivity.
Qed.

(** With no interval set, stopPolling returns at once. *)
Lemma stopPolling_not_polling (env : Env) (s : State) :
  pollingInterval s = None -> run env Push.stopPolling s = (tt, s).
Proof.
  intros H. unfold Push.stopPolling. cbn. rewrite H. reflexivity.
Qed.

Lemma remove_only (h : Timeout) : remove Nat.eq_dec h [h] = [].
Proof. cbn. destruct (Nat.eq_dec h h); congruence. Qed.

(** Idle, with nothing suspended and no interval, the server does nothing
    until a request arrives. *)
Lemma idle_stays_silent (ins : list (Z * Push.Action)) :
  Forall quiet ins ->
  forall y,
    pollingInterval (Push.st y) = None ->
    timers (Push.st y) = [] ->
    Push.waiting y = [] ->
    let y' := Push.exec cfg ins y in
    trace (Push.st y') = trace (Push.st y)
    /\ timers (Push.st y') = []
    /\ pollingInterval (Push.st y') = None.
Proof.
  unfold Push.exec.
  induction 1 as [| [t a] ins Hq _ IH]; intros y Hp Ht Hw;
    cbn [fold_left]; cbv zeta.
  - auto.
  - assert (Hstep : let y1 := Push.step cfg y (t, a) in
                    trace (Push.st y1) = trace (Push.st y)
                    /\ pollingInterval (Push.st y1) = None
                    /\ timers (Push.st y1) = []
                    /\ Push.waiting y1 = []).
    { destruct a as [r res | i o | i n | h |]; cbn.
      - destruct Hq.
      - rewrite Hw. destruct i; cbn; auto.
      - rewrite Hw. destruct i; cbn; auto.
      - rewrite Ht. cbn. auto.
      - unfold Push.spawn, Push.inactivity_check. cbn.
        rewrite Hp. cbn. rewrite Hw. auto. }
    destruct Hstep as (E1 & E2 & E3 & E4).
    destruct (IH _ E2 E3 E4) as (F1 & F2 & F3).
    cbv zeta in F1, F2, F3. split; [congruence | auto].
Qed.

(** C6.  When the inactivity check runs while the poller is Polling, no
    client is counted and the last snapshot request is older than
    INACTIVITY_TIMEOUT, the poller goes Idle: the interval is cleared and
    pollingInterval is null again; nothing else happens. *)
Theorem inactivity_stops_polling (y : Push.Sys) (t : Z) (h : Timeout) :
  pollingInterval (Push.st y) = Some h ->
  connectedClients (Push.st y) = 0 ->
  t - lastSnapshotRequest (Push.st y) > INACTIVITY_TIMEOUT cfg ->
  let y' := Push.step cfg y (t, Push.InactivityTimer) in
  pollingInterval (Push.st y') = None
  /\ timers (Push.st y') = remove Nat.eq_dec h (timers (Push.st y))
  /\ ~ In h (timers (Push.st y'))
  /\ Push.waiting y' = Push.waiting y
  /\ trace (Push.st y') = trace (Push.st y).
Proof.
  intros Hp Hc Ht.
  destruct y as [[l c p d ts n f nw tr se ex] w]. cbn in Hp, Hc, Ht. subst c p.
  assert (E : (t - l >? INACTIVITY_TIMEOUT cfg) = true).
  { apply Z.gtb_lt. lia. }
  unfold Push.step, Push.spawn, Push.tick, Push.inactivity_check,
    Push.stopPolling, Push.clearInterval.
  cbn. rewrite E. cbn. rewrite app_nil_r.
  repeat split. apply remove_In.
Qed.

End Poller.

Lemma inactivity_stops_polling_witness :
  pollingInterval (Push.st unwatched) = Some O
  /\ connectedClients (Push.st unwatched) = 0
  /\ pollingInterval
       (Push.st (Push.step cfg0 unwatched (40000, Push.InactivityTimer)))
     = None
  /\ timers (Push.st (Push.step cfg0 unwatched (40000, Push.InactivityTimer)))
     = [].
Proof.
  assert (Hp : pollingInterval (Push.st unwatched) = Some O)
    by (vm_compute; reflexivity).
  assert (Hc : connectedClients (Push.st unwatched) = 0)
    by (vm_compute; reflexivity).
  assert (Ht : 40000 - lastSnapshotRequest (Push.st unwatched)
               > INACTIVITY_TIMEOUT cfg0)
    by (vm_compute; reflexivity).
  destruct (inactivity_stops_polling cfg0 unwatched 40000 O Hp Hc Ht)
    as (E1 & E2 & _).
  split; [exact Hp |]. split; [exact Hc |]. split; [exact E1 |].
  rewrite E2. vm_compute. reflexivity.
Defined.

(** C5.  Evaluation at the failing input, with the two signals of server.js:
    a connect signal from Idle, then the disconnect signal of the same
    client while the first poll of the connect is still waiting for the
    camera.  The disconnect brings the count to zero and finds no interval
    to clear; when the poll has ended startPolling schedules the interval
    all the same.  Both signals are answered, one acquisition has been
    made, no client is counted, and yet pollingInterval is set and the
    interval is scheduled: when it fires a second acquisition is made. *)
Theorem disconnect_during_first_poll :
  connectedClients (Push.st hung) = 0
  /\ pollingInterval (Push.st hung) = Some O
  /\ timers (Push.st hung) = [O]
  /\ List.length (Push.waiting hung) = O
  /\ responses (trace (Push.st hung)) =
     [(1%nat, Push.clients_response "disconnected" 0);
      (O, Push.clients_response "connected" 0)]
  /\ acquisitions (trace (Push.st hung)) = 1%nat
  /\ acquisitions (trace (Push.st (Push.exec cfg0 firing hung))) = 2%nat
  /\ pollingInterval (Push.st (Push.exec cfg0 firing hung)) = Some O.
Proof.
  vm_compute. repeat split.
Qed.

(** C10.  Evaluation at the failing input: a connect signal and a snapshot
    request whose activations overlap both pass the test of startPolling and
    both call setInterval.  In the state reached two poll intervals are
    scheduled and pollingInterval names the second; a disconnect then clears
    that one, and the first goes on polling with the poller Idle.  Connect,
    disconnect and connect again, overlapping, reach two intervals as
    well. *)
Theorem overlapping_activations_two_timers :
  timers (Push.st raced) = [0; 1]%nat
  /\ pollingInterval (Push.st raced) = Some 1%nat
  /\ Push.waiting raced = []
  /\ (let y := Push.step cfg0 raced (80, Push.Request Push.Disconnect 2) in
      pollingInterval (Push.st y) = None
      /\ timers (Push.st y) = [0%nat]
      /\ List.length (Push.waiting (Push.step cfg0 y (90, Push.Interval 0%nat)))
         = 1%nat)
  /\ timers (Push.st raced_signals) = [0; 1]%nat
  /\ pollingInterval (Push.st raced_signals) = Some 1%nat
  /\ connectedClients (Push.st raced_signals) = 1
  /\ Push.waiting raced_signals = [].
Proof.
  vm_compute. repeat split.
Qed.


(** * Further properties of the code *)

(** ** What an acquisition leaves alone *)

Lemma perform_same_variables (t : Z) (a : Answer) (io : Io) (s : State) :
  same_variables s (snd (perform t a io s)).
Proof.
  unfold perform, same_variables.
  destruct a as [h i [[ct b] |] w [n |] r m], io; cbn;
    try destruct h; try destruct i; try destruct w; try destruct m;
    try (destruct r; [destruct (file s) |]);
    try destruct (session s); repeat split.
Qed.

Lemma same_variables_trans (s s1 s2 : State) :
  same_variables s s1 -> same_variables s1 s2 -> same_variables s s2.
Proof.
  unfold same_variables.
  intros (A1 & A2 & A3 & A4 & A5 & A6) (B1 & B2 & B3 & B4 & B5 & B6).
  repeat split; congruence.
Qed.

(** Walk through a program that only sends responses. *)
Ltac walk_frame s0 :=
  repeat first
    [ apply respects_Ret
    | apply respects_get
    | apply respects_await
    | apply respects_modify; intros ? H; exact H
    | apply (respects_bind (same_variables s0)); [ | intros ? ]
    | progress cbv zeta
    | match goal with
      | |- respects _ (match ?x with _ => _ end) => destruct x
      | |- respects _ (?f _ _) => unfold f
      | |- respects _ (?f _) => unfold f
      | |- respects _ ?f => unfold f
      end ].

Section Frame.

Variable cfg : Config.
Variable env : Env.

Lemma run_frame {A : Type} (p : Async A) (s : State) :
  respects (same_variables s) p -> same_variables s (snd (run env p s)).
Proof.
  intros Hp. apply run_respects.
  - intros t a io s' H.
    eapply same_variables_trans; [exact H | apply perform_same_variables].
  - exact Hp.
  - repeat split.
Qed.

Lemma getSnapshotDirect_frame (s : State) :
  same_variables s (snd (run env (getSnapshotDirect cfg) s)).
Proof. apply run_frame; walk_frame s. Qed.

Lemma getSnapshotONVIF_frame (s : State) :
  same_variables s (snd (run env getSnapshotONVIF s)).
Proof. apply run_frame; walk_frame s. Qed.

Lemma pollSnapshot_frame (s : State) :
  same_variables s (snd (run env (Push.pollSnapshot cfg) s)).
Proof. apply run_frame; walk_frame s. Qed.

Lemma getSnapshot_frame (s : State) :
  same_variables s (snd (run env (OnDemand.getSnapshot cfg) s)).
Proof. apply run_frame; walk_frame s. Qed.

Lemma serveSnapshot_frame (res : nat) (s : State) :
  same_variables s (snd (run env (serveSnapshot res) s)).
Proof. apply run_frame; walk_frame s. Qed.

(** The fetchers, the two coordinators and serveSnapshot never assign a
    module-level variable and never set or clear an interval, whatever the
    camera and the disk answer: the client count, pollingInterval,
    lastSnapshotRequest, device and the scheduled intervals are after the
    call what they were before it. *)
Theorem acquisition_keeps_variables (res : nat) (s : State) :
  same_variables s (snd (run env (getSnapshotDirect cfg) s))
  /\ same_variables s (snd (run env getSnapshotONVIF s))
  /\ same_variables s (snd (run env (Push.pollSnapshot cfg) s))
  /\ same_variables s (snd (run env (OnDemand.getSnapshot cfg) s))
  /\ same_variables s (snd (run env (serveSnapshot res) s)).
Proof.
  split; [apply getSnapshotDirect_frame |].
  split; [apply getSnapshotONVIF_frame |].
  split; [apply pollSnapshot_frame |].
  split; [apply getSnapshot_frame | apply serveSnapshot_frame].
Qed.

End Frame.

(** ** Which bytes end in the file *)

Lemma answer_at_0 (env : Env) (s : State) :
  answer_at env s 0 = snd (env (List.length (trace s))).
Proof. unfold answer_at. rewrite Nat.add_0_r. reflexivity. Qed.

Lemma answer_at_emit (env : Env) (s : State) (e : Event) (k : nat) :
  answer_at env (emit e s) k = answer_at env s (S k).
Proof.
  unfold answer_at. cbn. rewrite length_app. cbn.
  f_equal. f_equal. lia.
Qed.

Section Bytes.

Variable cfg : Config.
Variable env : Env.

Lemma getSnapshotDirect_answered (s : State) (data : bytes) (w : bool) :
  camera_http (answer_at env s 0) = Some data ->
  disk_write (answer_at env s 1) = w ->
  let '(d, s') := run env (getSnapshotDirect cfg) s in
  d = w
  /\ file s' =
     (if w then Some data
      else match disk_torn (answer_at env s 1) with
           | None => file s
           | Some n => Some (firstn n data)
           end)
  /\ since s s' =
     [EvIo (axios_get (directUrl cfg (now s))) (Data data);
      EvIo (fs_writeFile data) (if w then Fulfilled else Failed)].
Proof.
  unfold answer_at. rewrite Nat.add_0_r, Nat.add_1_r. intros Hh Hw.
  unfold getSnapshotDirect. cbn.
  destruct (env (List.length (trace s))) as [t a]. cbn in Hh.
  unfold perform. cbn. rewrite Hh. cbn.
  rewrite length_app, Nat.add_1_r. cbn.
  destruct (env (S (List.length (trace s)))) as [t' a']. cbn in Hw.
  unfold perform. cbn. rewrite Hw.
  destruct w; [| destruct (disk_torn a')]; cbn; observe; repeat split.
Qed.

Lemma getSnapshotDirect_session (s : State) :
  session (snd (run env (getSnapshotDirect cfg) s)) = session s.
Proof.
  unfold getSnapshotDirect. crunch env; reflexivity.
Qed.

(** When the camera answers the GET and the write goes through,
    getSnapshotDirect returns true and the file holds exactly the body of
    the reply; it does nothing but the GET and the write. *)
Theorem direct_stores_reply (s : State) (data : bytes) :
  camera_http (answer_at env s 0) = Some data ->
  disk_write (answer_at env s 1) = true ->
  let '(d, s') := run env (getSnapshotDirect cfg) s in
  d = true
  /\ file s' = Some data
  /\ since s s' =
     [EvIo (axios_get (directUrl cfg (now s))) (Data data);
      EvIo (fs_writeFile data) Fulfilled].
Proof.
  intros Hh Hw. exact (getSnapshotDirect_answered s data true Hh Hw).
Qed.

(** When the camera answers the GET but the write fails, getSnapshotDirect
    returns false and the frame is not stored.  The write is made in place:
    when it failed before the file was opened the file is as it was; when
    it failed after n bytes the file holds the first n bytes of the frame,
    none for a full disk, and the snapshot that was there is lost. *)
Theorem direct_write_failure (s : State) (data : bytes) :
  camera_http (answer_at env s 0) = Some data ->
  disk_write (answer_at env s 1) = false ->
  let '(d, s') := run env (getSnapshotDirect cfg) s in
  d = false
  /\ file s' = match disk_torn (answer_at env s 1) with
               | None => file s
               | Some n => Some (firstn n data)
               end
  /\ since s s' =
     [EvIo (axios_get (directUrl cfg (now s))) (Data data);
      EvIo (fs_writeFile data) Failed].
Proof.
  intros Hh Hw. exact (getSnapshotDirect_answered s data false Hh Hw).
Qed.

(** getSnapshotONVIF accepts a snapshot, which only a device with a session
    hands back, only when its content type is exactly the string
    image/jpeg: with any other content type it returns false without
    attempting a write, and the file stays as it was. *)
Theorem onvif_rejects_other_content_types
    (s : State) (d : OnvifDevice) (ct : string) (b : bytes) :
  device s = Some d ->
  session s = true ->
  camera_snapshot (answer_at env s 0) = Some (ct, b) ->
  ct <> "image/jpeg"%string ->
  let '(o, s') := run env getSnapshotONVIF s in
  o = false
  /\ file s' = file s
  /\ since s s' = [EvIo (device_fetchSnapshot d) (Snapshot ct b)].
Proof.
  rewrite answer_at_0. intros Hd Hse Hs Hct.
  apply String.eqb_neq in Hct.
  unfold getSnapshotONVIF. cbn. rewrite Hd. cbn.
  destruct (env (List.length (trace s))) as [t a]. cbn in Hs.
  unfold perform. cbn. rewrite Hse, Hs. cbn. rewrite Hct. cbn.
  observe. repeat split.
Qed.

(** When the ONVIF snapshot is a JPEG and the write goes through,
    getSnapshotONVIF returns true and the file holds exactly the body
    received. *)
Lemma onvif_stores_body (s : State) (d : OnvifDevice) (b : bytes) :
  device s = Some d ->
  session s = true ->
  camera_snapshot (answer_at env s 0) = Some ("image/jpeg"%string, b) ->
  disk_write (answer_at env s 1) = true ->
  let '(o, s') := run env getSnapshotONVIF s in
  o = true
  /\ file s' = Some b
  /\ since s s' =
     [EvIo (device_fetchSnapshot d) (Snapshot "image/jpeg" b);
      EvIo (fs_writeFile b) Fulfilled].
Proof.
  unfold answer_at. rewrite Nat.add_0_r, Nat.add_1_r. intros Hd Hse Hs Hw.
  unfold getSnapshotONVIF. cbn. rewrite Hd. cbn.
  destruct (env (List.length (trace s))) as [t a]. cbn in Hs.
  unfold perform. cbn. rewrite Hse, Hs. cbn. rewrite String.eqb_refl. cbn.
  rewrite length_app, Nat.add_1_r. cbn.
  destruct (env (S (List.length (trace s)))) as [t' a']. cbn in Hw.
  unfold perform. cbn. rewrite Hw. cbn. observe. repeat split.
Qed.

(** When the direct fetch fails and the device, which has a session, then
    hands back a JPEG that is written, both coordinators end with the ONVIF
    body in the file, and getSnapshot returns true. *)
Theorem fallback_stores_onvif_body
    (s : State) (d : OnvifDevice) (b : bytes) :
  let s1 := snd (run env (getSnapshotDirect cfg) s) in
  fst (run env (getSnapshotDirect cfg) s) = false ->
  device s = Some d ->
  session s = true ->
  camera_snapshot (answer_at env s1 0) = Some ("image/jpeg"%string, b) ->
  disk_write (answer_at env s1 1) = true ->
  run env (OnDemand.getSnapshot cfg) s =
    (boolean true, snd (run env getSnapshotONVIF s1))
  /\ file (snd (run env (OnDemand.getSnapshot cfg) s)) = Some b
  /\ file (snd (run env (Push.pollSnapshot cfg) s)) = Some b.
Proof.
  intros s1 Hd Hdev Hse Hs Hw.
  assert (Hdev1 : device s1 = Some d).
  { destruct (getSnapshotDirect_frame cfg env s) as (_ & _ & _ & E & _).
    fold s1 in E. congruence. }
  assert (Hse1 : session s1 = true).
  { subst s1. rewrite getSnapshotDirect_session. exact Hse. }
  pose proof (onvif_stores_body s1 d b Hdev1 Hse1 Hs Hw) as Ho.
  rewrite getSnapshot_run, pollSnapshot_run.
  destruct (run env (getSnapshotDirect cfg) s) as [dd s1'] eqn:E.
  cbn in Hd, s1. subst dd s1.
  destruct (run env getSnapshotONVIF s1') as [o s2].
  destruct Ho as (-> & Hf & _). cbn. auto.
Qed.

End Bytes.

Lemma direct_stores_reply_witness :
  camera_http (answer_at env_up (initial None 0) 0) = Some jpg
  /\ file (snd (run env_up (getSnapshotDirect cfg0) (initial None 0)))
     = Some jpg.
Proof.
  split; [reflexivity |].
  pose proof (direct_stores_reply cfg0 env_up (initial None 0) jpg
                eq_refl eq_refl) as H.
  destruct (run env_up (getSnapshotDirect cfg0) (initial None 0)).
  apply H.
Defined.

Lemma direct_write_failure_witness :
  disk_write (answer_at env_disk_full (initial (Some [Byte.x00]) 0) 1) = false
  /\ file (snd (run env_disk_full (getSnapshotDirect cfg0)
                  (initial (Some [Byte.x00]) 0)))
     = Some [].
Proof.
  split; [reflexivity |].
  pose proof (direct_write_failure cfg0 env_disk_full
                (initial (Some [Byte.x00]) 0) jpg eq_refl eq_refl) as H.
  destruct (run env_disk_full (getSnapshotDirect cfg0)
              (initial (Some [Byte.x00]) 0)).
  apply H.
Defined.

Lemma onvif_rejects_other_content_types_witness :
  device started_up = Some dev0
  /\ fst (run env_onvif_charset getSnapshotONVIF started_up) = false.
Proof.
  split; [reflexivity |].
  assert (Hct : "image/jpeg; charset=binary"%string <> "image/jpeg"%string)
    by discriminate.
  pose proof (onvif_rejects_other_content_types env_onvif_charset
                started_up dev0 _ jpg eq_refl eq_refl eq_refl Hct) as H.
  destruct (run env_onvif_charset getSnapshotONVIF started_up).
  apply H.
Defined.

Lemma fallback_stores_onvif_body_witness :
  fst (run env_onvif_only (getSnapshotDirect cfg0) started_up) = false
  /\ file (snd (run env_onvif_only (OnDemand.getSnapshot cfg0) started_up))
     = Some jpg.
Proof.
  split; [reflexivity |].
  apply (fallback_stores_onvif_body cfg0 env_onvif_only started_up dev0 jpg);
    reflexivity.
Defined.

(** ** The on-demand routes, end to end *)

Lemma answer_at_after (env : Env) (s s' : State) (k : nat) :
  trace s' = trace s ++ since s s' ->
  answer_at env s' k = answer_at env s (List.length (since s s') + k).
Proof.
  intros H. unfold answer_at. rewrite H at 1. rewrite length_app.
  f_equal. f_equal. lia.
Qed.

Section OnDemandRoutes.

Variable cfg : Config.
Variable env : Env.

Lemma snapshot_route_run (res : nat) (s : State) :
  let s1 := snd (run env (OnDemand.getSnapshot cfg) s) in
  let s' := snd (run env (OnDemand.snapshot_jpg cfg res) s) in
  let r := read_store (answer_at env s1 0) s1 in
  s' = snd (run env (serveSnapshot res) s1)
  /\ since s s' = since s s1 ++ since s1 s'
  /\ since s1 s' = [EvIo fs_readFile r; EvResponse res (response_for r)]
  /\ file s' = file s1.
Proof.
  cbv zeta. unfold OnDemand.snapshot_jpg. rewrite run_bind.
  pose proof (getSnapshot_trace cfg env s) as [T1 _].
  destruct (run env (OnDemand.getSnapshot cfg) s) as [v s1]. cbn [snd] in *.
  pose proof (serveSnapshot_trace env res s1) as (T2 & E).
  rewrite answer_at_0.
  split; [reflexivity |].
  split; [apply since_trans; assumption |].
  split; [exact E |].
  unfold serveSnapshot. crunch env; reflexivity.
Qed.

(** On demand, when the request is handled alone (no other request is in
    progress while it is), with a camera that answers the GET and a disk
    that works, GET /snapshot.jpg does the GET, writes the body, reads it
    back and answers 200 with the no-cache headers and exactly the bytes the
    camera just sent. *)
Theorem on_demand_serves_fresh_frame (res : nat) (s : State) (data : bytes) :
  camera_http (answer_at env s 0) = Some data ->
  disk_write (answer_at env s 1) = true ->
  disk_read (answer_at env s 2) = true ->
  let s' := snd (run env (OnDemand.snapshot_jpg cfg res) s) in
  since s s' =
    [EvIo (axios_get (directUrl cfg (now s))) (Data data);
     EvIo (fs_writeFile data) Fulfilled;
     EvIo fs_readFile (Data data);
     EvResponse res (image_response data)]
  /\ file s' = Some data.
Proof.
  intros Hh Hw Hr.
  destruct (snapshot_route_run res s) as (_ & E1 & E2 & E3).
  pose proof (getSnapshotDirect_answered cfg env s data true Hh Hw) as Hd.
  pose proof (getSnapshotDirect_trace cfg env s) as Td.
  rewrite getSnapshot_run in E1, E2, E3.
  destruct (run env (getSnapshotDirect cfg) s) as [d s1].
  destruct Hd as (-> & Hf & Hs). cbn [snd] in *.
  rewrite (answer_at_after env s s1 0 Td), Hs in E2.
  cbn [List.length Nat.add] in E2.
  unfold read_store in E2. rewrite Hr, Hf in E2.
  cbv zeta. rewrite E1, E2, E3, Hs. cbn. auto.
Qed.

(** On demand, when the request is handled alone (no other request is in
    progress while it is) and both fetchers fail before any write is
    attempted (the camera does not answer the GET, the device hands back no
    JPEG) while an earlier snapshot is on disk, the request is still
    answered 200 with that earlier snapshot: the failure of the acquisition
    is not reported to the client. *)
Theorem on_demand_serves_stale_frame (res : nat) (s : State) (old : bytes) :
  let s1 := snd (run env (OnDemand.getSnapshot cfg) s) in
  let s' := snd (run env (OnDemand.snapshot_jpg cfg res) s) in
  file s = Some old ->
  fst (run env (OnDemand.getSnapshot cfg) s) = boolean false ->
  attempted (since s s1) = [] ->
  disk_read (answer_at env s1 0) = true ->
  since s1 s' =
    [EvIo fs_readFile (Data old); EvResponse res (image_response old)]
  /\ file s' = Some old.
Proof.
  intros s1 s' Hf Hv Ha Hr.
  destruct (snapshot_route_run res s) as (_ & _ & E2 & E3).
  fold s1 in E2, E3. fold s' in E2, E3.
  assert (Hf1 : file s1 = Some old).
  { subst s1. rewrite getSnapshot_run in Hv, Ha |- *.
    destruct (run env (getSnapshotDirect cfg) s) as [d sd] eqn:Hd.
    destruct d; [discriminate Hv |].
    destruct (run env getSnapshotONVIF sd) as [o so] eqn:Ho.
    cbn in Hv, Ha |- *. injection Hv as ->.
    destruct (fallback_store cfg env s sd so false false Hd Ho)
      as (_ & _ & U).
    destruct (U eq_refl eq_refl) as [_ [E | (data & n & Hin & _)]].
    - congruence.
    - rewrite Ha in Hin. destruct Hin. }
  unfold read_store in E2. rewrite Hr, Hf1 in E2.
  split; [exact E2 | congruence].
Qed.

(** On demand, GET /test-snapshot makes one acquisition and reports its
    outcome in the success field of its answer: the field is true iff the
    acquisition wrote the file. *)
Theorem test_snapshot_reports_outcome (res : nat) (s : State) :
  let s1 := snd (run env (OnDemand.getSnapshot cfg) s) in
  let s' := snd (run env (OnDemand.test_snapshot cfg res) s) in
  exists b,
    trace s' =
      trace s1 ++
      [EvResponse res
         {| status := 200; headers := [];
            body := Object
              [("message", JStr "Snapshot test completed, check logs");
               ("success", JBool b)]%string |}]
    /\ (b = true <-> updated s s1)
    /\ file s' = file s1.
Proof.
  cbv zeta. unfold OnDemand.test_snapshot. rewrite run_bind.
  rewrite getSnapshot_run.
  destruct (run env (getSnapshotDirect cfg) s) as [d sd] eqn:Hd.
  destruct (run env getSnapshotONVIF sd) as [o so] eqn:Ho.
  destruct (fallback_store cfg env s sd so d o Hd Ho) as (U1 & U2 & U3).
  pose proof (updated_not_both s so) as X.
  destruct d; [| destruct o]; cbn.
  - exists true. repeat split; auto.
  - exists true. repeat split; auto.
  - exists false. repeat split; auto; try discriminate;
      intros U; exfalso; apply (X U); apply U3; reflexivity.
Qed.

End OnDemandRoutes.

Lemma on_demand_serves_fresh_frame_witness :
  disk_read (answer_at env_up (initial None 0) 2) = true
  /\ file (snd (run env_up (OnDemand.snapshot_jpg cfg0 1) (initial None 0)))
     = Some jpg.
Proof.
  split; [reflexivity |].
  apply (on_demand_serves_fresh_frame cfg0 env_up 1%nat (initial None 0) jpg);
    reflexivity.
Defined.

Lemma on_demand_serves_stale_frame_witness :
  fst (run env_camera_off (OnDemand.getSnapshot cfg0)
         (initial (Some [Byte.x00]) 0)) = boolean false
  /\ file (snd (run env_camera_off (OnDemand.snapshot_jpg cfg0 1)
                  (initial (Some [Byte.x00]) 0)))
     = Some [Byte.x00].
Proof.
  split; [reflexivity |].
  apply (on_demand_serves_stale_frame cfg0 env_camera_off 1%nat
           (initial (Some [Byte.x00]) 0) [Byte.x00]);
    reflexivity.
Defined.

(** ** The routes of the push variant *)

Section PushRoutes.

Variable cfg : Config.
Variable env : Env.

Lemma pollSnapshot_trace (s : State) :
  let s1 := snd (run env (Push.pollSnapshot cfg) s) in
  trace s1 = trace s ++ since s s1 /\ acquisitions (since s s1) = 1%nat.
Proof.
  apply (acquisition_chain cfg env (Push.pollSnapshot cfg) s).
  apply pollSnapshot_adds_nothing.
Qed.

(** startPolling from Idle: one poll, then the interval. *)
Lemma startPolling_idle_run (s : State) :
  pollingInterval s = None ->
  let s1 := snd (run env (Push.pollSnapshot cfg) s) in
  run env (Push.startPolling cfg) s =
  (tt, set_pollingInterval (Some (next_timer s1))
         (set_timers (timers s1 ++ [next_timer s1]) (S (next_timer s1)) s1)).
Proof.
  intros H. unfold Push.startPolling.
  rewrite run_bind. cbn [get run]. rewrite H. rewrite run_bind.
  destruct (run env (Push.pollSnapshot cfg) s) as [v s1]. reflexivity.
Qed.

(** The connect signal from Idle, handled alone: the count, one poll, the
    interval, the answer. *)
Lemma connect_idle_run (s : State) (res : nat) :
  connectedClients s = 0 ->
  pollingInterval s = None ->
  let s1 := snd (run env (Push.pollSnapshot cfg)
                   (set_connectedClients 1 s)) in
  snd (run env (Push.connect cfg res) s) =
  emit (EvResponse res (Push.clients_response "connected" (connectedClients s1)))
    (set_pollingInterval (Some (next_timer s1))
       (set_timers (timers s1 ++ [next_timer s1]) (S (next_timer s1)) s1)).
Proof.
  intros Hc Hp. cbv zeta. unfold Push.connect.
  rewrite run_bind. cbn [modify run]. rewrite Hc.
  change (0 + 1) with 1.
  rewrite run_bind. cbn [get run].
  rewrite run_bind.
  change (connectedClients (set_connectedClients 1 s) =? 1) with true.
  cbv iota.
  rewrite (startPolling_idle_run (set_connectedClients 1 s) Hp).
  cbv zeta. reflexivity.
Qed.

(** When the connect signal has been handled to its end before the
    disconnect signal arrives: from Idle (no client, no interval) the
    connect makes exactly one acquisition and leaves the poller Polling with
    one interval scheduled, whose firing starts an acquisition; the
    disconnect brings the count back to zero, clears that interval and
    leaves the poller Idle; from then on no timer makes an acquisition: the
    trace stays as it is until a request arrives. *)
Lemma connect_then_disconnect
    (s : State) (res res' : nat) :
  connectedClients s = 0 ->
  pollingInterval s = None ->
  timers s = [] ->
  let s1 := snd (run env (Push.connect cfg res) s) in
  let s2 := snd (run env (Push.disconnect res') s1) in
  (connectedClients s1 = 1
   /\ pollingInterval s1 = Some (next_timer s)
   /\ timers s1 = [next_timer s]
   /\ acquisitions (since s s1) = 1%nat)
  /\ (forall t,
        Push.waiting
          (Push.step cfg {| Push.st := s1; Push.waiting := [] |}
             (t, Push.Interval (next_timer s))) =
        snd (Push.advance (Push.poll_tick cfg) (set_now t s1))
        /\ exists k,
             snd (Push.advance (Push.poll_tick cfg) (set_now t s1)) =
             [(axios_get (directUrl cfg t), k)])
  /\ (connectedClients s2 = 0
      /\ pollingInterval s2 = None
      /\ timers s2 = []
      /\ since s1 s2 =
         [EvResponse res' (Push.clients_response "disconnected" 0)])
  /\ forall ins,
      Forall quiet ins ->
      let y := Push.exec cfg ins {| Push.st := s2; Push.waiting := [] |} in
      trace (Push.st y) = trace s2
      /\ timers (Push.st y) = []
      /\ pollingInterval (Push.st y) = None.
Proof.
  intros Hc Hp Ht s1 s2.
  assert (H1 : connectedClients s1 = 1
               /\ pollingInterval s1 = Some (next_timer s)
               /\ timers s1 = [next_timer s]
               /\ acquisitions (since s s1) = 1%nat).
  { pose proof (connect_idle_run s res Hc Hp) as Hrun.
    cbv zeta in Hrun. fold s1 in Hrun.
    set (s0 := set_connectedClients 1 s) in *.
    destruct (pollSnapshot_trace s0) as [T1 A1].
    destruct (pollSnapshot_frame cfg env s0) as (_ & F2 & _ & _ & F5 & F6).
    set (sp := snd (run env (Push.pollSnapshot cfg) s0)) in *.
    rewrite Hrun. cbn. cbn in F2, F5, F6.
    rewrite F5, F6, Ht.
    split; [exact F2 |]. split; [reflexivity |]. split; [reflexivity |].
    unfold since. cbn. fold (since s0 sp).
    change (trace s) with (trace s0). rewrite T1 at 1.
    rewrite <- app_assoc, skipn_exact, acquisitions_app, A1.
    reflexivity. }
  assert (H2 : connectedClients s2 = 0
               /\ pollingInterval s2 = None
               /\ timers s2 = []
               /\ since s1 s2 =
                  [EvResponse res'
                     (Push.clients_response "disconnected" 0)]).
  { destruct H1 as (E1 & E2 & E3 & _). subst s2.
    destruct s1 as [l c p d ts n f nw tr se ex]. cbn in E1, E2, E3.
    subst c p ts.
    unfold Push.disconnect, Push.stopPolling, Push.clearInterval.
    cbn. destruct (Nat.eq_dec (next_timer s) (next_timer s));
      [| congruence].
    observe. repeat split. }
  split; [exact H1 |]. split.
  { intros t. destruct H1 as (_ & _ & E3 & _).
    unfold Push.step, Push.spawn, Push.tick. cbn [Push.st Push.waiting].
    replace (timers (set_now t s1)) with (timers s1) by reflexivity.
    rewrite E3. cbn [existsb]. rewrite Nat.eqb_refl. cbn [orb].
    destruct (Push.advance (Push.poll_tick cfg) (set_now t s1))
      as [s3 w] eqn:E.
    cbn [Push.waiting app snd]. split; [reflexivity |].
    unfold Push.poll_tick, Push.pollSnapshot, getSnapshotDirect in E.
    cbn in E. injection E as _ E. rewrite <- E. eexists. reflexivity. }
  split; [exact H2 |].
  intros ins Hq. destruct H2 as (_ & E2 & E3 & _).
  apply (idle_stays_silent cfg ins Hq
           {| Push.st := s2; Push.waiting := [] |});
    [exact E2 | exact E3 | reflexivity].
Qed.

(** A snapshot request that finds the poller Polling contacts neither the
    camera nor the device: it stamps lastSnapshotRequest with the current
    time, reads the file and answers from it; the interval stays as it
    is.  Both snapshot routes of part_000 do so. *)
Theorem snapshot_request_while_polling
    (name : string) (res : nat) (s : State) (h : Timeout) :
  pollingInterval s = Some h ->
  let r := read_store (answer_at env s 0) s in
  let served s' :=
    since s s' = [EvIo fs_readFile r; EvResponse res (response_for r)]
    /\ lastSnapshotRequest s' = now s
    /\ pollingInterval s' = Some h
    /\ timers s' = timers s
    /\ file s' = file s in
  served (snd (run env (Push.snapshot_jpg cfg res) s))
  /\ served (snd (run env (Push.snapshot_name cfg name res) s)).
Proof.
  intros H. rewrite answer_at_0. cbv zeta.
  unfold Push.snapshot_jpg, Push.snapshot_name, serveSnapshot, read_store.
  cbn. rewrite H. cbn.
  destruct (env (List.length (trace s))) as [t a].
  unfold perform. cbn.
  destruct (if disk_read a then file s else None); cbn; observe;
    repeat split; assumption.
Qed.

(** A snapshot request that finds the poller Idle activates it before it
    answers: it stamps lastSnapshotRequest, makes one acquisition, schedules
    the poll interval and only then reads the file and answers from it; the
    client count is not changed. *)
Theorem snapshot_request_activates (res : nat) (s : State) :
  pollingInterval s = None ->
  let s0 := set_lastSnapshotRequest (now s) s in
  let s1 := snd (run env (Push.pollSnapshot cfg) s0) in
  let s' := snd (run env (Push.snapshot_jpg cfg res) s) in
  let r := read_store (answer_at env s1 0) s1 in
  since s s' =
    since s0 s1 ++ [EvIo fs_readFile r; EvResponse res (response_for r)]
  /\ acquisitions (since s s') = 1%nat
  /\ pollingInterval s' = Some (next_timer s)
  /\ timers s' = timers s ++ [next_timer s]
  /\ lastSnapshotRequest s' = now s
  /\ connectedClients s' = connectedClients s.
Proof.
  intros H s0 s1 s' r.
  assert (H0 : pollingInterval s0 = None) by exact H.
  pose proof (startPolling_idle_run s0 H0) as Hsp. fold s1 in Hsp.
  destruct (pollSnapshot_trace s0) as [T1 A1]. fold s1 in T1, A1.
  destruct (pollSnapshot_frame cfg env s0) as (F1 & F2 & F3 & F4 & F5 & F6).
  fold s1 in F1, F2, F3, F4, F5, F6.
  set (s2 := set_pollingInterval (Some (next_timer s1))
               (set_timers (timers s1 ++ [next_timer s1])
                  (S (next_timer s1)) s1)) in Hsp.
  assert (Hrun : s' = snd (run env (serveSnapshot res) s2)).
  { subst s'. unfold Push.snapshot_jpg.
    rewrite run_bind. cbn [modify run].
    rewrite run_bind. cbn [get run].
    fold s0. rewrite H0. rewrite run_bind, Hsp. reflexivity. }
  destruct (serveSnapshot_trace env res s2) as (T2 & E2).
  destruct (serveSnapshot_frame env res s2) as (G1 & G2 & G3 & G4 & G5 & G6).
  rewrite <- Hrun in T2, E2, G1, G2, G3, G4, G5, G6.
  change (trace s2) with (trace s1) in T2, E2.
  change (read_store (snd (env (List.length (trace s1)))) s2)
    with (read_store (snd (env (List.length (trace s1)))) s1) in E2.
  fold (since s1 s') in E2.
  assert (E : since s s' = since s0 s1 ++ since s1 s').
  { change (since s s') with (since s0 s'). apply since_trans; assumption. }
  assert (Er : since s1 s' =
               [EvIo fs_readFile r; EvResponse res (response_for r)]).
  { subst r. rewrite answer_at_0. exact E2. }
  split; [rewrite E, Er; reflexivity |].
  split; [rewrite E, Er, acquisitions_app, A1; reflexivity |].
  cbn in G1, G2, G3, G5. cbn in F1, F2, F5, F6.
  repeat split; congruence.
Qed.

(** A connect signal that is not the first (the count was not zero), or that
    finds the poller already Polling, contacts nothing and schedules
    nothing: it adds one to the count and answers with the new count. *)
Theorem connect_without_activation (res : nat) (s : State) :
  connectedClients s <> 0 \/ pollingInterval s <> None ->
  run env (Push.connect cfg res) s =
  (tt, emit (EvResponse res
               (Push.clients_response "connected" (connectedClients s + 1)))
         (set_connectedClients (connectedClients s + 1) s)).
Proof.
  intros H. unfold Push.connect, Push.startPolling. cbn.
  destruct (connectedClients s + 1 =? 1) eqn:E; cbn; [| reflexivity].
  apply Z.eqb_eq in E.
  destruct H as [H | H]; [lia |].
  destruct (pollingInterval s); [reflexivity | congruence].
Qed.

(** A disconnect signal that leaves at least one client counted takes one
    off the count, answers with it and leaves the poller as it is. *)
Theorem disconnect_with_clients_left (res : nat) (s : State) :
  2 <= connectedClients s ->
  run env (Push.disconnect res) s =
  (tt, emit (EvResponse res
               (Push.clients_response "disconnected" (connectedClients s - 1)))
         (set_connectedClients (connectedClients s - 1) s)).
Proof.
  intros H. unfold Push.disconnect. cbn.
  rewrite Z.max_r by lia.
  destruct (connectedClients s - 1 =? 0) eqn:E; cbn; [| reflexivity].
  apply Z.eqb_eq in E. lia.
Qed.

(** A disconnect signal received with at most one client counted stops the
    poller whoever activated it: the interval named by pollingInterval is
    cleared even when it was started by a snapshot request and no client
    had connected. *)
Theorem disconnect_stops_any_polling (res : nat) (s : State) (h : Timeout) :
  connectedClients s <= 1 ->
  pollingInterval s = Some h ->
  let s' := snd (run env (Push.disconnect res) s) in
  connectedClients s' = 0
  /\ pollingInterval s' = None
  /\ timers s' = remove Nat.eq_dec h (timers s)
  /\ since s s' = [EvResponse res (Push.clients_response "disconnected" 0)].
Proof.
  intros Hc Hp. unfold Push.disconnect, Push.stopPolling, Push.clearInterval.
  cbn. rewrite Z.max_l by lia. cbn. rewrite Hp. cbn. observe.
  repeat split.
Qed.

(** The inactivity check leaves everything as it is, but for the clock, when
    a client is counted, or when the last snapshot request is not older than
    INACTIVITY_TIMEOUT, or when the poller is Idle. *)
Theorem inactivity_check_keeps_polling (y : Push.Sys) (t : Z) :
  connectedClients (Push.st y) <> 0
  \/ t - lastSnapshotRequest (Push.st y) <= INACTIVITY_TIMEOUT cfg
  \/ pollingInterval (Push.st y) = None ->
  Push.step cfg y (t, Push.InactivityTimer) = Push.tick t y.
Proof.
  intros H.
  unfold Push.step, Push.spawn, Push.tick, Push.inactivity_check.
  cbn.
  destruct (pollingInterval (Push.st y)) eqn:Hp; cbn.
  - assert (G : (t - lastSnapshotRequest (Push.st y)
                 >? INACTIVITY_TIMEOUT cfg)
                && (connectedClients (Push.st y) =? 0) = false).
    { destruct H as [H | [H | H]]; [| | discriminate H].
      - apply Z.eqb_neq in H. rewrite H. apply andb_false_r.
      - rewrite Z.gtb_ltb. apply andb_false_intro1, Z.ltb_ge. exact H. }
    rewrite G. cbn. rewrite app_nil_r. reflexivity.
  - rewrite app_nil_r. reflexivity.
Qed.

End PushRoutes.

Lemma connect_then_disconnect_witness :
  let s1 := snd (run env_up (Push.connect cfg0 1) (initial None 0)) in
  let s2 := snd (run env_up (Push.disconnect 2) s1) in
  (pollingInterval s1 = Some O /\ acquisitions (since (initial None 0) s1) = 1%nat)
  /\ (pollingInterval s2 = None /\ timers s2 = []).
Proof.
  destruct (connect_then_disconnect cfg0 env_up (initial None 0) 1 2
              eq_refl eq_refl eq_refl)
    as ((_ & E2 & _ & E4) & _ & (_ & F2 & F3 & _) & _).
  cbv zeta. repeat split; assumption.
Defined.

(** ** An invariant of the interval table under any interleaving *)

Section Settled.

Variable I : State -> Prop.
Hypothesis I_perform : forall t a io s, I s -> I (snd (perform t a io s)).
Hypothesis I_now : forall t s, I s -> I (set_now t s).
Hypothesis I_file : forall v s, I s -> I (set_file v s).

Lemma wp_bind {A B : Type} (m : Async A) (f : A -> Async B)
    (Q : B -> State -> Prop) :
  forall s, wp I m (fun a s' => wp I (f a) Q s') s -> wp I (bind m f) Q s.
Proof.
  induction m as [a | k IH | g k IH | io k IH]; intros s; cbn.
  - trivial.
  - apply IH.
  - apply IH.
  - intros [Hi Hk]. split; [exact Hi |].
    intros r s' Hs'. apply IH, Hk, Hs'.
Qed.

Lemma wp_mono {A : Type} (p : Async A) (Q Q' : A -> State -> Prop) :
  (forall a s, Q a s -> Q' a s) -> forall s, wp I p Q s -> wp I p Q' s.
Proof.
  intros HQ.
  induction p as [a | k IH | g k IH | io k IH]; intros s; cbn.
  - apply HQ.
  - apply IH.
  - apply IH.
  - intros [Hi Hk]. split; [exact Hi |].
    intros r s' Hs'. apply IH, Hk, Hs'.
Qed.

Lemma wp_respects {A : Type} (p : Async A) :
  respects I p -> forall s, I s -> wp I p (fun _ => I) s.
Proof.
  induction 1 as [a | k _ IH | g k Hg _ IH | io k _ IH]; intros s Hs; cbn.
  - exact Hs.
  - apply IH, Hs.
  - apply IH, Hg, Hs.
  - split; [exact Hs |]. intros r s' Hs'. apply IH, Hs'.
Qed.

(** Two programs that keep [I] keep it one after the other. *)
Lemma wp_then {A B : Type} (m : Async A) (f : A -> Async B) :
  (forall s, I s -> wp I m (fun _ => I) s) ->
  (forall a s, I s -> wp I (f a) (fun _ => I) s) ->
  forall s, I s -> wp I (bind m f) (fun _ => I) s.
Proof.
  intros Hm Hf s Hs. apply wp_bind.
  eapply wp_mono; [| apply Hm, Hs].
  intros a s' Hs'. apply Hf, Hs'.
Qed.

Lemma advance_settled (p : Async unit) :
  forall s,
    wp I p (fun _ => I) s ->
    settled I {| Push.st := fst (Push.advance p s);
                 Push.waiting := snd (Push.advance p s) |}.
Proof.
  unfold settled.
  induction p as [a | k IH | g k IH | io k _]; intros s; cbn.
  - intros Hs. split; [exact Hs | constructor].
  - apply IH.
  - apply IH.
  - intros [Hi Hk]. split; [exact Hi |].
    constructor; [exact Hk | constructor].
Qed.

Lemma spawn_settled (p : Async unit) (y : Push.Sys) :
  settled I y ->
  wp I p (fun _ => I) (Push.st y) ->
  settled I (Push.spawn p y).
Proof.
  intros [Hs Hw] Hp. unfold Push.spawn.
  destruct (advance_settled p (Push.st y) Hp) as [Hs' Hw'].
  cbn in Hs', Hw'.
  destruct (Push.advance p (Push.st y)) as [s' t']. cbn in *.
  split; [exact Hs' | apply Forall_app; split; assumption].
Qed.

Variable cfg : Config.
Hypothesis handler_safe :
  forall r res s, I s -> wp I (Push.handler cfg r res) (fun _ => I) s.
Hypothesis poll_safe :
  forall s, I s -> wp I (Push.poll_tick cfg) (fun _ => I) s.
Hypothesis check_safe :
  forall s, I s -> wp I (Push.inactivity_check cfg) (fun _ => I) s.

Lemma step_settled (y : Push.Sys) (ta : Z * Push.Action) :
  settled I y -> settled I (Push.step cfg y ta).
Proof.
  intros Hy. destruct ta as [t [r res | i a | i n | h |]];
    unfold Push.step; cbv beta iota zeta.
  - destruct Hy as [Hs Hw].
    apply spawn_settled; [split; [apply I_now, Hs | exact Hw] |].
    apply handler_safe. apply I_now, Hs.
  - destruct (nth_error (Push.waiting y) i) as [[io k] |] eqn:Hn;
      [| exact Hy].
    destruct Hy as [Hs Hw].
    pose proof (I_perform t a io _ Hs) as Hp.
    destruct (perform t a io (Push.st y)) as [r s'].
    apply spawn_settled.
    + split; [exact Hp | apply remove_nth_Forall, Hw].
    + rewrite Forall_forall in Hw.
      apply (Hw (io, k)); [eapply nth_error_In, Hn | exact Hp].
  - destruct (nth_error (Push.waiting y) i) as [[[] k] |]; try exact Hy.
    destruct Hy as [Hs Hw]. split; [apply I_file, I_now, Hs | exact Hw].
  - destruct (existsb (Nat.eqb h) (timers (Push.st y))); [| exact Hy].
    destruct Hy as [Hs Hw].
    apply spawn_settled; [split; [apply I_now, Hs | exact Hw] |].
    apply poll_safe. apply I_now, Hs.
  - destruct Hy as [Hs Hw].
    apply spawn_settled; [split; [apply I_now, Hs | exact Hw] |].
    apply check_safe. apply I_now, Hs.
Qed.

Lemma exec_settled (ins : list (Z * Push.Action)) :
  forall y, settled I y -> settled I (Push.exec cfg ins y).
Proof.
  unfold Push.exec.
  induction ins as [| ta ins IH]; intros y Hy; cbn.
  - exact Hy.
  - apply IH, step_settled, Hy.
Qed.

End Settled.

Lemma NoDup_remove_eq (h : Timeout) (l : list Timeout) :
  NoDup l -> NoDup (remove Nat.eq_dec h l).
Proof.
  induction 1 as [| x l Hx Hl IH]; cbn.
  - constructor.
  - destruct (Nat.eq_dec h x); [exact IH |].
    constructor; [| exact IH].
    intros Hin. apply in_remove in Hin. apply Hx, Hin.
Qed.

Lemma timers_ok_same (s s' : State) :
  same_variables s s' -> timers_ok s -> timers_ok s'.
Proof.
  unfold same_variables, timers_ok.
  intros (_ & _ & E3 & _ & E5 & E6) H. rewrite E3, E5, E6. exact H.
Qed.

Lemma timers_ok_setInterval (s : State) :
  timers_ok s ->
  timers_ok (set_pollingInterval (Some (next_timer s))
               (set_timers (timers s ++ [next_timer s])
                  (S (next_timer s)) s)).
Proof.
  unfold timers_ok. cbn. intros (Hn & Hlt & _).
  split; [| split].
  - apply NoDup_app; [exact Hn | repeat constructor; intros [] |].
    intros a Ha [<- | []]. apply Hlt in Ha. lia.
  - intros h Hin. apply in_app_or in Hin as [Hin | [<- | []]].
    + apply Hlt in Hin. lia.
    + lia.
  - intros h E. injection E as <-. apply in_or_app. right. left. reflexivity.
Qed.

Lemma timers_ok_clearInterval (s : State) (h : Timeout) :
  timers_ok s ->
  timers_ok (set_pollingInterval None
               (set_timers (remove Nat.eq_dec h (timers s))
                  (next_timer s) s)).
Proof.
  unfold timers_ok. cbn. intros (Hn & Hlt & _).
  split; [| split].
  - apply NoDup_remove_eq, Hn.
  - intros x Hin. apply in_remove in Hin. apply Hlt, Hin.
  - discriminate.
Qed.

(** Walk through a program whose updates are given by [side] to keep
    [timers_ok]. *)
Ltac walk_timers :=
  repeat first
    [ apply respects_Ret
    | apply respects_get
    | apply respects_await
    | apply respects_modify; intros ? H; exact H
    | apply (respects_bind timers_ok); [ | intros ? ]
    | progress cbv zeta
    | match goal with
      | |- respects _ (match ?x with _ => _ end) => destruct x
      | |- respects _ (?f _ _) => unfold f
      | |- respects _ (?f _) => unfold f
      | |- respects _ ?f => unfold f
      end ].

Section Intervals.

Variable cfg : Config.

Lemma pollSnapshot_timers_ok (s : State) :
  timers_ok s -> wp timers_ok (Push.pollSnapshot cfg) (fun _ => timers_ok) s.
Proof. apply wp_respects. walk_timers. Qed.

Lemma serveSnapshot_timers_ok (res : nat) (s : State) :
  timers_ok s -> wp timers_ok (serveSnapshot res) (fun _ => timers_ok) s.
Proof. apply wp_respects. walk_timers. Qed.

Lemma startPolling_timers_ok (s : State) :
  timers_ok s -> wp timers_ok (Push.startPolling cfg) (fun _ => timers_ok) s.
Proof.
  intros Hs. unfold Push.startPolling.
  apply wp_bind. cbn [get wp].
  destruct (pollingInterval s); [exact Hs |].
  apply wp_bind.
  eapply wp_mono; [| apply pollSnapshot_timers_ok, Hs].
  intros v s' Hs'. cbn. apply timers_ok_setInterval, Hs'.
Qed.

Lemma stopPolling_timers_ok (s : State) :
  timers_ok s -> wp timers_ok Push.stopPolling (fun _ => timers_ok) s.
Proof.
  intros Hs. unfold Push.stopPolling. cbn.
  destruct (pollingInterval s) as [h |]; [| exact Hs].
  apply timers_ok_clearInterval, Hs.
Qed.

Lemma respond_timers_ok (res : nat) (r : Response) (s : State) :
  timers_ok s -> wp timers_ok (respond res r) (fun _ => timers_ok) s.
Proof. intros Hs. exact Hs. Qed.

Lemma handler_timers_ok (r : Push.Route) (res : nat) (s : State) :
  timers_ok s -> wp timers_ok (Push.handler cfg r res) (fun _ => timers_ok) s.
Proof.
  destruct r; cbn [Push.handler];
    unfold Push.snapshot_jpg, Push.snapshot_name, Push.connect,
      Push.disconnect, Push.test_snapshot.
  - apply wp_then; [intros s' H; exact H |]. intros _.
    apply wp_then; [intros s' H; exact H |]. intros s0.
    apply wp_then; [| intros _; apply serveSnapshot_timers_ok].
    destruct (pollingInterval s0);
      [intros s' H; exact H | apply startPolling_timers_ok].
  - apply wp_then; [intros s' H; exact H |]. intros _.
    apply wp_then; [intros s' H; exact H |]. intros s0.
    apply wp_then; [| intros _; apply serveSnapshot_timers_ok].
    destruct (pollingInterval s0);
      [intros s' H; exact H | apply startPolling_timers_ok].
  - apply wp_then; [intros s' H; exact H |]. intros _.
    apply wp_then; [intros s' H; exact H |]. intros s0.
    apply wp_then.
    + destruct (connectedClients s0 =? 1);
        [apply startPolling_timers_ok | intros s' H; exact H].
    + intros _.
      apply wp_then; [intros s' H; exact H |]. intros s1.
      apply respond_timers_ok.
  - apply wp_then; [intros s' H; exact H |]. intros _.
    apply wp_then; [intros s' H; exact H |]. intros s0.
    apply wp_then.
    + destruct (connectedClients s0 =? 0);
        [apply stopPolling_timers_ok | intros s' H; exact H].
    + intros _.
      apply wp_then; [intros s' H; exact H |]. intros s1.
      apply respond_timers_ok.
  - apply wp_then; [apply pollSnapshot_timers_ok |]. intros _.
    apply respond_timers_ok.
Qed.

Lemma poll_tick_timers_ok (s : State) :
  timers_ok s -> wp timers_ok (Push.poll_tick cfg) (fun _ => timers_ok) s.
Proof.
  unfold Push.poll_tick.
  apply wp_then; [apply pollSnapshot_timers_ok |].
  intros _ s' H. exact H.
Qed.

Lemma inactivity_check_timers_ok (s : State) :
  timers_ok s ->
  wp timers_ok (Push.inactivity_check cfg) (fun _ => timers_ok) s.
Proof.
  intros Hs. unfold Push.inactivity_check.
  apply wp_bind. cbn [get wp]. cbv zeta.
  destruct (pollingInterval s); [| exact Hs].
  destruct ((now s - lastSnapshotRequest s >? INACTIVITY_TIMEOUT cfg)
            && (connectedClients s =? 0));
    [apply stopPolling_timers_ok, Hs | exact Hs].
Qed.

Lemma start_timers_ok : respects timers_ok (start cfg).
Proof. walk_timers. Qed.

(** Whatever the interleaving of requests, timers and completing operations
    from start() on: the scheduled poll intervals are distinct, and whenever
    pollingInterval is not null the interval it names is scheduled, so that
    stopPolling always clears a live interval. *)
Theorem pollingInterval_is_scheduled
    (env : Env) (f : option bytes) (t0 : Z) (ins : list (Z * Push.Action)) :
  timers_ok (Push.st (Push.exec cfg ins (Push.boot cfg env f t0))).
Proof.
  assert (Hp : forall t a io s,
             timers_ok s -> timers_ok (snd (perform t a io s))).
  { intros t a io s. apply timers_ok_same, perform_same_variables. }
  apply (exec_settled timers_ok Hp (fun t s H => H) (fun v s H => H) cfg
           handler_timers_ok poll_tick_timers_ok inactivity_check_timers_ok).
  split; [| constructor]. unfold Push.boot. cbn [Push.st].
  apply run_respects; [exact Hp | apply start_timers_ok |].
  repeat split; cbn; try constructor; try contradiction; discriminate.
Qed.

End Intervals.

(** ** The interval table when nothing overlaps *)

(** Case analysis for a handler of the push variant started in a state
    given field by field. *)
Ltac crunch_push env :=
  repeat (cbn;
    match goal with
    | |- context [env ?n] => destruct (env n) as [? [? ? ? ? ? ? ?]]
    | |- context [String.eqb ?a ?b] => destruct (String.eqb a b) eqn:?
    | |- context [perform _ _ _ _] => unfold perform
    | |- context [Nat.eq_dec ?a ?b] => destruct (Nat.eq_dec a b)
    | |- context [Z.eqb ?a ?b] => destruct (Z.eqb a b) eqn:?
    | |- context [Z.gtb ?a ?b] => destruct (Z.gtb a b) eqn:?
    | |- context [match ?x with _ => _ end] =>
        is_var x;
        lazymatch type of x with
        | option (_ * _) => destruct x as [[? ?] |]
        | _ => destruct x
        end
    end);
  cbn; try congruence.

(** ** The turns of the push variant, one by one *)

Lemma responses_app (l l' : list Event) :
  responses (l ++ l') = responses l ++ responses l'.
Proof.
  induction l as [| e l IH]; [reflexivity |].
  destruct e; cbn; rewrite IH; reflexivity.
Qed.

Lemma sends_refl (s : State) : sends s s [].
Proof. exists []. split; [symmetry; apply app_nil_r | reflexivity]. Qed.

Lemma sends_trans (s s1 s2 : State) (l1 l2 : list (nat * Response)) :
  sends s s1 l1 -> sends s1 s2 l2 -> sends s s2 (l1 ++ l2).
Proof.
  intros (tr1 & T1 & R1) (tr2 & T2 & R2). exists (tr1 ++ tr2).
  rewrite T2, T1, responses_app, R1, R2, app_assoc. split; reflexivity.
Qed.

Lemma sends_since (s s' : State) (l : list (nat * Response)) :
  sends s s' l -> responses (since s s') = l.
Proof.
  intros (tr & T & R). unfold since. rewrite T, skipn_exact. exact R.
Qed.

Lemma sends_respond (s : State) (res : nat) (r : Response) :
  sends s (emit (EvResponse res r) s) [(res, r)].
Proof. exists [EvResponse res r]. split; reflexivity. Qed.

Lemma started_same (s s' : State) :
  same_variables s s' -> same_variables (started s) (started s').
Proof.
  intros (A1 & A2 & A3 & A4 & A5 & A6). unfold started, same_variables.
  rewrite A3. destruct (pollingInterval s) eqn:E; cbn; rewrite ?A5, ?A6;
    repeat split; congruence.
Qed.

Lemma stopped_same (s s' : State) :
  same_variables s s' -> same_variables (stopped s) (stopped s').
Proof.
  intros (A1 & A2 & A3 & A4 & A5 & A6). unfold stopped, same_variables.
  rewrite A3. destruct (pollingInterval s) eqn:E; cbn; rewrite ?A5, ?A6;
    repeat split; congruence.
Qed.

Lemma same_variables_refl (s : State) : same_variables s s.
Proof. repeat split. Qed.

Lemma same_variables_sym (s s' : State) :
  same_variables s s' -> same_variables s' s.
Proof.
  intros (A1 & A2 & A3 & A4 & A5 & A6). repeat split; congruence.
Qed.

Section Turns.

Variable cfg : Config.
Variable env : Env.

Lemma getSnapshotDirect_sends (s : State) :
  sends s (snd (run env (getSnapshotDirect cfg) s)) [].
Proof.
  exists (since s (snd (run env (getSnapshotDirect cfg) s))).
  split; [apply getSnapshotDirect_trace |].
  unfold getSnapshotDirect. crunch env; observe; reflexivity.
Qed.

Lemma getSnapshotONVIF_sends (s : State) :
  sends s (snd (run env getSnapshotONVIF s)) [].
Proof.
  exists (since s (snd (run env getSnapshotONVIF s))).
  split; [apply getSnapshotONVIF_trace |].
  unfold getSnapshotONVIF. crunch env; observe; reflexivity.
Qed.

(** A coordinator sends no response. *)
Lemma acquisition_sends (acq : Async value) (s : State) :
  adds_nothing cfg acq env s -> sends s (snd (run env acq s)) [].
Proof.
  unfold adds_nothing.
  pose proof (getSnapshotDirect_sends s) as Hd.
  destruct (run env (getSnapshotDirect cfg) s) as [d s1]. cbn [snd] in Hd.
  intros ->. destruct d; [exact Hd |].
  apply (sends_trans s s1 _ [] [] Hd), getSnapshotONVIF_sends.
Qed.

Lemma pollSnapshot_sends (s : State) :
  sends s (snd (run env (Push.pollSnapshot cfg) s)) [].
Proof. apply acquisition_sends, pollSnapshot_adds_nothing. Qed.

Lemma getSnapshot_sends (s : State) :
  sends s (snd (run env (OnDemand.getSnapshot cfg) s)) [].
Proof. apply acquisition_sends, getSnapshot_adds_nothing. Qed.

Lemma serveSnapshot_sends (res : nat) (s : State) :
  exists x, sends s (snd (run env (serveSnapshot res) s)) [(res, x)].
Proof.
  destruct (serveSnapshot_trace env res s) as [T E]. cbv zeta in T, E.
  eexists. eexists. split; [exact T |]. rewrite E. reflexivity.
Qed.

Lemma stopPolling_run (s : State) :
  run env Push.stopPolling s = (tt, stopped s).
Proof.
  unfold Push.stopPolling, Push.clearInterval, stopped. cbn.
  destruct (pollingInterval s); reflexivity.
Qed.

Lemma startPolling_variables (s : State) :
  same_variables (started s) (snd (run env (Push.startPolling cfg) s)).
Proof.
  unfold started. destruct (pollingInterval s) as [h |] eqn:E.
  - rewrite (startPolling_already_polling cfg env s h E).
    apply same_variables_refl.
  - rewrite (startPolling_idle_run cfg env s E). cbv zeta.
    destruct (pollSnapshot_frame cfg env s) as (A1 & A2 & A3 & A4 & A5 & A6).
    set (s1 := snd (run env (Push.pollSnapshot cfg) s)) in *.
    unfold same_variables. cbn. repeat split; congruence.
Qed.

Lemma startPolling_sends (s : State) :
  sends s (snd (run env (Push.startPolling cfg) s)) [].
Proof.
  destruct (pollingInterval s) as [h |] eqn:E.
  - rewrite (startPolling_already_polling cfg env s h E). apply sends_refl.
  - rewrite (startPolling_idle_run cfg env s E). cbv zeta.
    exact (pollSnapshot_sends s).
Qed.

(** Each handler, run alone, in terms of the acquisition and the read it
    makes. *)
Lemma snapshot_jpg_run (res : nat) (s : State) :
  snd (run env (Push.snapshot_jpg cfg res) s) =
  snd (run env (serveSnapshot res)
         (snd (run env (Push.startPolling cfg)
                 (set_lastSnapshotRequest (now s) s)))).
Proof.
  unfold Push.snapshot_jpg.
  rewrite run_bind. cbn [modify run].
  rewrite run_bind. cbn [get run].
  rewrite run_bind.
  set (s0 := set_lastSnapshotRequest (now s) s).
  destruct (pollingInterval s0) as [h |] eqn:E.
  - rewrite (startPolling_already_polling cfg env s0 h E). reflexivity.
  - destruct (run env (Push.startPolling cfg) s0). reflexivity.
Qed.

Lemma connect_run (res : nat) (s : State) :
  snd (run env (Push.connect cfg res) s) =
  let s0 := set_connectedClients (connectedClients s + 1) s in
  let s1 := if connectedClients s0 =? 1
            then snd (run env (Push.startPolling cfg) s0) else s0 in
  emit (EvResponse res
          (Push.clients_response "connected" (connectedClients s1))) s1.
Proof.
  unfold Push.connect.
  rewrite run_bind. cbn [modify run].
  rewrite run_bind. cbn [get run].
  rewrite run_bind. cbv zeta.
  set (s0 := set_connectedClients (connectedClients s + 1) s).
  destruct (connectedClients s0 =? 1).
  - destruct (run env (Push.startPolling cfg) s0). reflexivity.
  - reflexivity.
Qed.

Lemma disconnect_run (res : nat) (s : State) :
  snd (run env (Push.disconnect res) s) =
  let s0 := set_connectedClients (Z.max 0 (connectedClients s - 1)) s in
  let s1 := if connectedClients s0 =? 0 then stopped s0 else s0 in
  emit (EvResponse res
          (Push.clients_response "disconnected" (connectedClients s1))) s1.
Proof.
  unfold Push.disconnect.
  rewrite run_bind. cbn [modify run].
  rewrite run_bind. cbn [get run].
  rewrite run_bind. cbv zeta.
  set (s0 := set_connectedClients (Z.max 0 (connectedClients s - 1)) s).
  destruct (connectedClients s0 =? 0).
  - rewrite stopPolling_run. reflexivity.
  - reflexivity.
Qed.

Lemma test_snapshot_run (res : nat) (s : State) :
  exists x,
    snd (run env (Push.test_snapshot cfg res) s) =
    emit (EvResponse res x) (snd (run env (Push.pollSnapshot cfg) s)).
Proof.
  unfold Push.test_snapshot. rewrite run_bind.
  destruct (run env (Push.pollSnapshot cfg) s). eexists. reflexivity.
Qed.

Lemma poll_tick_run (s : State) :
  snd (run env (Push.poll_tick cfg) s) =
  snd (run env (Push.pollSnapshot cfg) s).
Proof.
  unfold Push.poll_tick. rewrite run_bind.
  destruct (run env (Push.pollSnapshot cfg) s). reflexivity.
Qed.

Lemma inactivity_check_run (s : State) :
  snd (run env (Push.inactivity_check cfg) s) =
  match pollingInterval s with
  | Some _ =>
      if (now s - lastSnapshotRequest s >? INACTIVITY_TIMEOUT cfg)
         && (connectedClients s =? 0)
      then stopped s else s
  | None => s
  end.
Proof.
  unfold Push.inactivity_check. cbn [bind Monad_Async abind get run].
  destruct (pollingInterval s); [| reflexivity].
  destruct ((now s - lastSnapshotRequest s >? INACTIVITY_TIMEOUT cfg)
            && (connectedClients s =? 0)).
  - rewrite stopPolling_run. reflexivity.
  - reflexivity.
Qed.

(** The variables after a turn are those [variables_after] gives. *)
Lemma turn_variables (s : State) (t : Z) (u : Turn) :
  same_variables (variables_after cfg t u s) (turn cfg env s (t, u)).
Proof.
  unfold turn. cbn [fst snd].
  destruct u as [[| name | | |] res | h |];
    cbn [turn_program variables_after Push.handler].
  - rewrite snapshot_jpg_run.
    eapply same_variables_trans; [| apply serveSnapshot_frame].
    eapply same_variables_trans; [| apply startPolling_variables].
    apply started_same. repeat split.
  - unfold Push.snapshot_name. fold (Push.snapshot_jpg cfg res).
    rewrite snapshot_jpg_run.
    eapply same_variables_trans; [| apply serveSnapshot_frame].
    eapply same_variables_trans; [| apply startPolling_variables].
    apply started_same. repeat split.
  - rewrite connect_run. cbv zeta.
    change (connectedClients
              (set_connectedClients (connectedClients (set_now t s) + 1)
                 (set_now t s)))
      with (connectedClients s + 1).
    change (connectedClients
              (set_connectedClients (connectedClients s + 1) s))
      with (connectedClients s + 1).
    destruct (connectedClients s + 1 =? 1).
    + set (s0 := set_connectedClients (connectedClients (set_now t s) + 1)
                   (set_now t s)).
      apply (same_variables_trans _ (started s0));
        [apply started_same; repeat split |].
      apply (same_variables_trans _
               (snd (run env (Push.startPolling cfg) s0)));
        [apply startPolling_variables | repeat split].
    + repeat split.
  - rewrite disconnect_run. cbv zeta.
    change (connectedClients
              (set_connectedClients
                 (Z.max 0 (connectedClients (set_now t s) - 1))
                 (set_now t s)))
      with (Z.max 0 (connectedClients s - 1)).
    change (connectedClients
              (set_connectedClients (Z.max 0 (connectedClients s - 1)) s))
      with (Z.max 0 (connectedClients s - 1)).
    destruct (Z.max 0 (connectedClients s - 1) =? 0).
    + set (s0 := set_connectedClients
                   (Z.max 0 (connectedClients (set_now t s) - 1))
                   (set_now t s)).
      apply (same_variables_trans _ (stopped s0));
        [apply stopped_same; repeat split | repeat split].
    + repeat split.
  - destruct (test_snapshot_run res (set_now t s)) as [x ->].
    eapply same_variables_trans;
      [apply (pollSnapshot_frame cfg env (set_now t s)) | repeat split].
  - destruct (existsb (Nat.eqb h) (timers s));
      [| apply same_variables_refl].
    rewrite poll_tick_run.
    apply (pollSnapshot_frame cfg env (set_now t s)).
  - rewrite inactivity_check_run.
    change (pollingInterval (set_now t s)) with (pollingInterval s).
    destruct (pollingInterval s); [| repeat split].
    change (now (set_now t s)) with t.
    change (lastSnapshotRequest (set_now t s)) with (lastSnapshotRequest s).
    change (connectedClients (set_now t s)) with (connectedClients s).
    destruct ((t - lastSnapshotRequest s >? INACTIVITY_TIMEOUT cfg)
              && (connectedClients s =? 0)).
    + apply stopped_same. repeat split.
    + repeat split.
Qed.

(** Each handler, run alone, sends one response, on its request. *)
Lemma handler_sends (r : Push.Route) (res : nat) (s : State) :
  exists x, sends s (snd (run env (Push.handler cfg r res) s)) [(res, x)].
Proof.
  assert (Hjpg : exists x,
             sends s (snd (run env (Push.snapshot_jpg cfg res) s))
               [(res, x)]).
  { rewrite snapshot_jpg_run.
    set (s0 := set_lastSnapshotRequest (now s) s).
    set (s1 := snd (run env (Push.startPolling cfg) s0)).
    destruct (serveSnapshot_sends res s1) as [x Hx].
    exists x.
    apply (sends_trans s s1 _ [] [(res, x)]); [| exact Hx].
    exact (startPolling_sends s0). }
  destruct r as [| name | | |]; cbn [Push.handler].
  - exact Hjpg.
  - exact Hjpg.
  - rewrite connect_run. cbv zeta.
    set (s0 := set_connectedClients (connectedClients s + 1) s).
    set (s1 := if connectedClients s0 =? 1
               then snd (run env (Push.startPolling cfg) s0) else s0).
    eexists.
    apply (sends_trans s s1 _ [] [_]); [| apply sends_respond].
    subst s1. destruct (connectedClients s0 =? 1);
      [exact (startPolling_sends s0) | exact (sends_refl s0)].
  - rewrite disconnect_run. cbv zeta.
    set (s0 := set_connectedClients (Z.max 0 (connectedClients s - 1)) s).
    set (s1 := if connectedClients s0 =? 0 then stopped s0 else s0).
    eexists.
    apply (sends_trans s s1 _ [] [_]); [| apply sends_respond].
    subst s1. destruct (connectedClients s0 =? 0);
      [| exact (sends_refl s0)].
    unfold stopped. destruct (pollingInterval s0); exact (sends_refl s0).
  - destruct (test_snapshot_run res s) as [x ->]. exists x.
    apply (sends_trans s (snd (run env (Push.pollSnapshot cfg) s)) _ [] [_]);
      [| apply sends_respond].
    apply pollSnapshot_sends.
Qed.

End Turns.

Section Serial.

Variable cfg : Config.
Variable env : Env.

(** A turn is an execution of the event loop. *)
Lemma turn_exec (s : State) (tu : Z * Turn) :
  Push.exec cfg (script cfg env s tu) {| Push.st := s; Push.waiting := [] |} =
  {| Push.st := turn cfg env s tu; Push.waiting := [] |}.
Proof.
  destruct tu as [t u]. unfold script, turn. cbn [fst snd].
  unfold Push.exec. cbn [fold_left].
  destruct u as [r res | h |]; cbn [turn_program turn_action].
  - apply (run_alone cfg env (Push.handler cfg r res) (set_now t s)).
  - unfold Push.step. cbn [Push.st].
    destruct (existsb (Nat.eqb h) (timers s)); [| reflexivity].
    apply (run_alone cfg env (Push.poll_tick cfg) (set_now t s)).
  - apply (run_alone cfg env (Push.inactivity_check cfg) (set_now t s)).
Qed.

Lemma serial_exec (turns : list (Z * Turn)) :
  forall s,
    Push.exec cfg (scripts cfg env turns s)
      {| Push.st := s; Push.waiting := [] |} =
    {| Push.st := serial cfg env turns s; Push.waiting := [] |}.
Proof.
  induction turns as [| tu turns IH]; intros s; [reflexivity |].
  cbn [scripts serial fold_left]. unfold Push.exec.
  rewrite fold_left_app.
  change (fold_left (Push.step cfg) (script cfg env s tu)
            {| Push.st := s; Push.waiting := [] |})
    with (Push.exec cfg (script cfg env s tu)
            {| Push.st := s; Push.waiting := [] |}).
  rewrite turn_exec. apply IH.
Qed.

Lemma one_timer_same (s s' : State) :
  same_variables s s' -> one_timer s -> one_timer s'.
Proof.
  intros (_ & _ & A3 & _ & A5 & _). unfold one_timer.
  rewrite A3, A5. trivial.
Qed.

Lemma turn_one_timer (s : State) (tu : Z * Turn) :
  one_timer s -> one_timer (turn cfg env s tu).
Proof.
  intros H. destruct tu as [t u].
  apply (one_timer_same (variables_after cfg t u s));
    [apply turn_variables |].
  destruct s as [l c p d ts n f nw tr se ex]. unfold one_timer in H. cbn in H.
  unfold one_timer, variables_after, started, stopped.
  destruct u as [[| name | | |] res | h |]; destruct p as [h0 |]; subst ts;
    crunch_push env; reflexivity.
Qed.

Lemma start_run (f : option bytes) (t0 : Z) :
  let s := snd (run env (start cfg) (initial f t0)) in
  let d := {| xaddr := ("https://" ++ CAMERA_IP cfg ++ ":" ++ ONVIF_PORT cfg
                          ++ "/onvif/device_service")%string;
              user := CAMERA_USERNAME cfg;
              pass := CAMERA_PASSWORD cfg |} in
  device s = Some d
  /\ pollingInterval s = None
  /\ timers s = []
  /\ connectedClients s = 0
  /\ file s = f
  /\ exists m i, trace s = [EvIo fs_mkdir m; EvIo (device_init d) i].
Proof.
  unfold start, ensureDirectories, initializeDevice.
  crunch env; repeat split; eexists; eexists; reflexivity.
Qed.

(** start() goes through whatever mkdir and device.init report: it awaits
    these two operations and nothing else, contacts neither snapshot
    endpoint, leaves the snapshot file as it found it and leaves the poller
    Idle with no client counted; [device] holds the device object. *)
Theorem start_survives_failures (f : option bytes) (t0 : Z) :
  let s := snd (run env (start cfg) (initial f t0)) in
  let d := {| xaddr := ("https://" ++ CAMERA_IP cfg ++ ":" ++ ONVIF_PORT cfg
                          ++ "/onvif/device_service")%string;
              user := CAMERA_USERNAME cfg;
              pass := CAMERA_PASSWORD cfg |} in
  device s = Some d
  /\ pollingInterval s = None
  /\ timers s = []
  /\ connectedClients s = 0
  /\ file s = f
  /\ exists m i, trace s = [EvIo fs_mkdir m; EvIo (device_init d) i].
Proof. exact (start_run f t0). Qed.

(** When every request, every firing of the poll interval and every
    inactivity check runs to its end before the next begins, exactly the
    interval named by pollingInterval is scheduled after each of them: one
    while Polling, none while Idle.  Such a sequence of turns is an
    execution of the event loop. *)
Theorem one_interval_when_serial
    (f : option bytes) (t0 : Z) (turns : list (Z * Turn)) :
  let y := Push.boot cfg env f t0 in
  let s := serial cfg env turns (Push.st y) in
  one_timer s
  /\ Push.exec cfg (scripts cfg env turns (Push.st y)) y =
     {| Push.st := s; Push.waiting := [] |}.
Proof.
  cbv zeta. split; [| apply serial_exec].
  assert (H0 : one_timer (Push.st (Push.boot cfg env f t0))).
  { destruct (start_run f t0) as (_ & Hp & Ht & _).
    unfold one_timer, Push.boot. cbn [Push.st]. rewrite Hp, Ht.
    reflexivity. }
  revert H0. generalize (Push.st (Push.boot cfg env f t0)).
  unfold serial.
  induction turns as [| tu turns IH]; intros s Hs; cbn [fold_left].
  - exact Hs.
  - apply IH, turn_one_timer, Hs.
Qed.

(** Run alone, every handler of the push variant sends exactly one response,
    on the request it serves, whatever the camera and the disk answer and
    whatever the state it starts in. *)
Theorem push_request_answered_once (r : Push.Route) (res : nat) (s : State) :
  exists x,
    responses (since s (snd (run env (Push.handler cfg r res) s))) =
    [(res, x)].
Proof.
  destruct (handler_sends cfg env r res s) as [x H].
  exists x. apply sends_since, H.
Qed.

(** The same for the three handlers of the on-demand variant. *)
Theorem on_demand_request_answered_once
    (name : string) (res : nat) (s : State) :
  (exists x,
      responses (since s (snd (run env (OnDemand.snapshot_jpg cfg res) s))) =
      [(res, x)])
  /\ (exists x,
        responses
          (since s (snd (run env (OnDemand.snapshot_name cfg name res) s))) =
        [(res, x)])
  /\ (exists x,
        responses (since s (snd (run env (OnDemand.test_snapshot cfg res) s))) =
        [(res, x)]).
Proof.
  assert (Hs : exists x,
             sends s (snd (run env (OnDemand.snapshot_jpg cfg res) s))
               [(res, x)]).
  { unfold OnDemand.snapshot_jpg. rewrite run_bind.
    pose proof (getSnapshot_sends cfg env s) as Hg.
    destruct (run env (OnDemand.getSnapshot cfg) s) as [v s1].
    cbn [snd] in Hg.
    destruct (serveSnapshot_sends env res s1) as [x Hx]. exists x.
    exact (sends_trans s s1 _ [] [(res, x)] Hg Hx). }
  destruct Hs as [x Hx].
  split; [exists x; apply sends_since, Hx |].
  split; [exists x; apply sends_since, Hx |].
  unfold OnDemand.test_snapshot. rewrite run_bind.
  pose proof (getSnapshot_sends cfg env s) as Hg.
  destruct (run env (OnDemand.getSnapshot cfg) s) as [v s1].
  cbn [snd] in Hg. eexists. apply sends_since.
  apply (sends_trans s s1 _ [] [_] Hg). apply sends_respond.
Qed.

End Serial.

Lemma snapshot_request_while_polling_witness :
  pollingInterval polling_one_client = Some O
  /\ timers (snd (run env_down (Push.snapshot_jpg cfg0 2) polling_one_client))
     = [O]
  /\ acquisitions
       (since polling_one_client
          (snd (run env_down (Push.snapshot_jpg cfg0 2) polling_one_client)))
     = O.
Proof.
  assert (Hp : pollingInterval polling_one_client = Some O) by reflexivity.
  destruct (snapshot_request_while_polling cfg0 env_down "x"%string 2%nat
              polling_one_client O Hp) as [(E & _ & _ & T & _) _].
  split; [exact Hp |]. split; [rewrite T; reflexivity |].
  rewrite E. reflexivity.
Defined.

Lemma snapshot_request_activates_witness :
  pollingInterval started_up = None
  /\ pollingInterval (snd (run env_up (Push.snapshot_jpg cfg0 2) started_up))
     = Some O.
Proof.
  split; [reflexivity |].
  apply (snapshot_request_activates cfg0 env_up 2%nat started_up).
  reflexivity.
Defined.

Lemma connect_without_activation_witness :
  connectedClients polling_one_client <> 0
  /\ timers (snd (run env_up (Push.connect cfg0 3) polling_one_client)) = [O]
  /\ connectedClients
       (snd (run env_up (Push.connect cfg0 3) polling_one_client)) = 2.
Proof.
  assert (H : connectedClients polling_one_client <> 0) by discriminate.
  rewrite (connect_without_activation cfg0 env_up 3%nat polling_one_client
             (or_introl H)).
  split; [exact H |]. split; reflexivity.
Defined.

Lemma disconnect_with_clients_left_witness :
  2 <= connectedClients
         (snd (run env_up (Push.connect cfg0 3) polling_one_client))
  /\ pollingInterval
       (snd (run env_up (Push.disconnect 4)
               (snd (run env_up (Push.connect cfg0 3) polling_one_client))))
     = Some O.
Proof.
  assert (H : 2 <= connectedClients
                     (snd (run env_up (Push.connect cfg0 3)
                             polling_one_client)))
    by (vm_compute; discriminate).
  rewrite (disconnect_with_clients_left env_up 4%nat _ H).
  split; [exact H | reflexivity].
Defined.

Lemma disconnect_stops_any_polling_witness :
  connectedClients (Push.st unwatched) <= 1
  /\ pollingInterval (Push.st unwatched) = Some O
  /\ timers (snd (run env_up (Push.disconnect 4) (Push.st unwatched))) = [].
Proof.
  assert (Hc : connectedClients (Push.st unwatched) <= 1)
    by (vm_compute; discriminate).
  assert (Hp : pollingInterval (Push.st unwatched) = Some O)
    by (vm_compute; reflexivity).
  destruct (disconnect_stops_any_polling env_up 4%nat (Push.st unwatched) O
              Hc Hp) as (_ & _ & T & _).
  split; [exact Hc |]. split; [exact Hp |].
  rewrite T. vm_compute. reflexivity.
Defined.

Lemma inactivity_check_keeps_polling_witness :
  40000 - lastSnapshotRequest (Push.st unwatched) > INACTIVITY_TIMEOUT cfg0
  /\ connectedClients
       (Push.st (Push.step cfg0 unwatched (35, Push.Request Push.Connect 5)))
     <> 0
  /\ pollingInterval
       (Push.st
          (Push.step cfg0
             (Push.step cfg0 unwatched (35, Push.Request Push.Connect 5))
             (40000, Push.InactivityTimer)))
     = Some O.
Proof.
  assert (Hc : connectedClients
                 (Push.st (Push.step cfg0 unwatched
                             (35, Push.Request Push.Connect 5))) <> 0)
    by (vm_compute; discriminate).
  rewrite (inactivity_check_keeps_polling cfg0 _ 40000 (or_introl Hc)).
  split; [vm_compute; reflexivity |]. split; [exact Hc |].
  vm_compute. reflexivity.
Defined.

(** ** The nonce of the direct URL *)

Lemma append_cancel_l (p a b : string) :
  (p ++ a)%string = (p ++ b)%string -> a = b.
Proof.
  induction p as [| c p IH]; cbn; intros H; [exact H |].
  injection H as H. apply IH, H.
Qed.

Lemma append_cut (c : Ascii.ascii) (x y r r' : string) :
  occurs c x = false ->
  occurs c y = false ->
  (x ++ String c r)%string = (y ++ String c r')%string ->
  x = y.
Proof.
  revert y. induction x as [| a x IH]; intros [| b y]; cbn; intros Hx Hy H.
  - reflexivity.
  - injection H as -> _. rewrite Ascii.eqb_refl in Hy. discriminate Hy.
  - injection H as <- _. rewrite Ascii.eqb_refl in Hx. discriminate Hx.
  - injection H as -> H.
    apply orb_false_elim in Hx as [_ Hx].
    apply orb_false_elim in Hy as [_ Hy].
    f_equal. apply (IH y Hx Hy H).
Qed.

Lemma digits_without_ampersand (d : Decimal.uint) :
  occurs ampersand (NilEmpty.string_of_uint d) = false.
Proof.
  induction d; cbn; try exact IHd; reflexivity.
Qed.

Lemma number_without_ampersand (z : Z) :
  occurs ampersand (number_to_string z) = false.
Proof.
  unfold number_to_string.
  destruct (Z.to_int z) as [d | d]; cbn;
    destruct d; try reflexivity; apply (digits_without_ampersand (_ d)).
Qed.

Lemma number_to_string_inj (a b : Z) :
  number_to_string a = number_to_string b -> a = b.
Proof.
  unfold number_to_string. intros H.
  apply DecimalZ.to_int_inj.
  assert (N : forall z, Z.to_int z <> Decimal.Pos Decimal.Nil
                        /\ Z.to_int z <> Decimal.Neg Decimal.Nil).
  { intros [| p | p]; cbn; split; try discriminate;
      intros E; injection E as E;
      exact (DecimalPos.Unsigned.to_uint_nonnil p E). }
  destruct (N a) as [A1 A2]. destruct (N b) as [B1 B2].
  pose proof (NilZero.isi (Z.to_int a) A1 A2) as Ia.
  pose proof (NilZero.isi (Z.to_int b) B1 B2) as Ib.
  rewrite H in Ia. congruence.
Qed.

(** Direct fetches made at different readings of the clock never use the
    same URL: the rs parameter, the decimal Date.now() of the call, tells
    them apart whatever the host and the credentials are. *)
Theorem directUrl_nonce (cfg : Config) (t1 t2 : Z) :
  t1 <> t2 -> directUrl cfg t1 <> directUrl cfg t2.
Proof.
  intros Hne H. apply Hne. unfold directUrl in H.
  apply append_cancel_l in H. apply append_cancel_l in H.
  apply append_cancel_l in H.
  apply number_to_string_inj.
  apply (append_cut ampersand _ _ _ _
           (number_without_ampersand t1) (number_without_ampersand t2) H).
Qed.

Lemma directUrl_nonce_witness :
  1700000000000 <> 1700000000001
  /\ directUrl cfg0 1700000000000 <> directUrl cfg0 1700000000001.
Proof.
  assert (H : 1700000000000 <> 1700000000001) by discriminate.
  split; [exact H | apply (directUrl_nonce cfg0 _ _ H)].
Defined.

(** ** Clients and polling when nothing overlaps *)

Ltac decide_clients :=
  repeat match goal with
         | H : (_ =? _) = true |- _ => apply Z.eqb_eq in H
         | H : (_ =? _) = false |- _ => apply Z.eqb_neq in H
         | H : (_ >? _) = true |- _ => clear H
         | H : (_ >? _) = false |- _ => clear H
         end;
  repeat split; intros; try discriminate; try lia;
  try (exfalso; lia);
  try match goal with
      | H : ?x <> ?x |- _ => exfalso; apply H; reflexivity
      end.

Section Watched.

Variable cfg : Config.
Variable env : Env.

Lemma watched_same (s s' : State) :
  same_variables s s' -> watched s -> watched s'.
Proof.
  intros (_ & A2 & A3 & _). unfold watched. rewrite A2, A3. trivial.
Qed.

Lemma polls_iff_watched_same (s s' : State) :
  same_variables s s' -> polls_iff_watched s -> polls_iff_watched s'.
Proof.
  intros (_ & A2 & A3 & _). unfold polls_iff_watched. rewrite A2, A3.
  trivial.
Qed.

Lemma turn_watched (s : State) (tu : Z * Turn) :
  watched s -> watched (turn cfg env s tu).
Proof.
  intros [H0 H]. destruct tu as [t u].
  apply (watched_same (variables_after cfg t u s));
    [apply turn_variables |].
  destruct s as [l c p d ts n f nw tr se ex]. cbn in H0, H.
  unfold watched, variables_after, started, stopped.
  destruct u as [[| name | | |] res | h |]; destruct p as [h0 |];
    crunch_push env; decide_clients;
    try (assert (c = 0) by (destruct (Z.eq_dec c 0) as [E | E];
                            [exact E | exfalso; apply H; [lia | reflexivity]]);
         lia).
Qed.

Lemma turn_polls_iff_watched (s : State) (tu : Z * Turn) :
  signal tu -> polls_iff_watched s -> polls_iff_watched (turn cfg env s tu).
Proof.
  intros Hsig [H0 H]. destruct tu as [t u].
  apply (polls_iff_watched_same (variables_after cfg t u s));
    [apply turn_variables |].
  destruct s as [l c p d ts n f nw tr se ex]. cbn in H0, H.
  unfold polls_iff_watched, variables_after, started, stopped.
  destruct u as [[| name | | |] res | h |]; cbn in Hsig; try contradiction;
    destruct p as [h0 |];
    crunch_push env;
    try (assert (0 < c) by (apply H; discriminate));
    try (assert (c = 0)
           by (destruct (Z.eq_dec c 0) as [E | E];
               [exact E
               | exfalso; assert (X : 0 < c) by lia;
                 apply H in X; apply X; reflexivity]));
    decide_clients.
Qed.

(** When nothing overlaps, the poller of part_000 is Polling whenever a
    client is counted: after every request, poll or inactivity check run to
    its end from start() on, a positive count comes with a scheduled poll
    interval. *)
Theorem counted_client_is_polled
    (f : option bytes) (t0 : Z) (turns : list (Z * Turn)) :
  watched (serial cfg env turns (Push.st (Push.boot cfg env f t0))).
Proof.
  assert (H0 : watched (Push.st (Push.boot cfg env f t0))).
  { destruct (start_run cfg env f t0) as (_ & Hp & _ & Hc & _).
    unfold watched, Push.boot. cbn [Push.st]. rewrite Hc. split; lia. }
  revert H0. generalize (Push.st (Push.boot cfg env f t0)).
  unfold serial.
  induction turns as [| tu turns IH]; intros s Hs; cbn [fold_left].
  - exact Hs.
  - apply IH, turn_watched, Hs.
Qed.

(** With the routes of server.js alone (connect, disconnect and the poll
    interval) and nothing overlapping, the poller is Polling exactly while a
    client is counted. *)
Theorem signals_polling_iff_counted
    (f : option bytes) (t0 : Z) (turns : list (Z * Turn)) :
  Forall signal turns ->
  polls_iff_watched (serial cfg env turns (Push.st (Push.boot cfg env f t0))).
Proof.
  intros Hsig.
  assert (H0 : polls_iff_watched (Push.st (Push.boot cfg env f t0))).
  { destruct (start_run cfg env f t0) as (_ & Hp & _ & Hc & _).
    unfold polls_iff_watched, Push.boot. cbn [Push.st]. rewrite Hc, Hp.
    split; [lia |]. split; [lia | intros X; exfalso; apply X; reflexivity]. }
  revert H0. generalize (Push.st (Push.boot cfg env f t0)).
  unfold serial.
  induction Hsig as [| tu turns Htu _ IH]; intros s Hs; cbn [fold_left].
  - exact Hs.
  - apply IH, turn_polls_iff_watched; assumption.
Qed.

End Watched.

Lemma signals_polling_iff_counted_witness :
  Forall signal [(10, Serve Push.Connect 1); (20, Serve Push.Disconnect 2)]
  /\ polls_iff_watched
       (serial cfg0 env_up
          [(10, Serve Push.Connect 1); (20, Serve Push.Disconnect 2)]
          (Push.st (Push.boot cfg0 env_up None 0))).
Proof.
  assert (H : Forall signal
                [(10, Serve Push.Connect 1); (20, Serve Push.Disconnect 2)])
    by (repeat constructor).
  split; [exact H |].
  apply (signals_polling_iff_counted cfg0 env_up None 0 _ H).
Defined.
